(** * Verification of the gesture, mode and particle logic of christmas-tree-wish

    Sources: [src/main.js] (landmark classifier [detectGesture], webcam
    callback [predictWebcam], [animate] and the vertex shader) and
    [src/script.js] (the [ChristmasApp] gesture handlers and
    [ParticleManager]).  [src/script.js] holds several versions of the app
    one after the other; the two [ChristmasApp] variants with gesture code
    are the one starting at line 28 (whose effective [handleGestures] is
    the second definition in the class, lines 408-469) and the one starting
    at line 2314 ([handleGestures] at lines 2496-2543).

    JS numbers in the classifiers are modelled as IEEE doubles (Rocq's
    primitive floats), so that NaN behaves as in the browser.  The animator
    and the geometry are modelled over the reals, the exact arithmetic their
    formulas describe. *)

From Stdlib Require Import List String Arith Lia ZArith.
From Stdlib Require Import Floats.
From Stdlib Require Import Reals Lra.
Import ListNotations.

Set Warnings "-inexact-float".

(* ------------------------------------------------------------------ *)
(** ** JS values: results that may throw *)

(** Evaluating a JS expression either returns a value or throws a
    [TypeError] (reading a property of [undefined]). *)
Inductive outcome (A : Type) : Type :=
| Return (a : A)
| TypeError.
Arguments Return {A} a.
Arguments TypeError {A}.

Definition bind {A B} (m : outcome A) (f : A -> outcome B) : outcome B :=
  match m with
  | Return a => f a
  | TypeError => TypeError
  end.

Notation "x <- m ;; k" := (bind m (fun x => k))
  (at level 61, m at next level, right associativity).

(* ------------------------------------------------------------------ *)
(** ** [src/main.js]: [detectGesture] *)

Module MainJs.

Open Scope float_scope.

(** A MediaPipe landmark [{x, y, z}]. *)
Record landmark := mkLandmark { x : float; y : float; z : float }.

(** [landmarks[i]]: [undefined] ([None]) past the end of the array. *)
Definition lookup (landmarks : list landmark) (i : nat) : option landmark :=
  nth_error landmarks i.

(** [Math.pow(d, 2)] *)
Definition pow2 (d : float) : float := d * d.

(** [const dist = (p1, p2) => Math.sqrt(Math.pow(p1.x - p2.x, 2) + ...)];
    reading [.x] of [undefined] throws. *)
Definition dist (p1 p2 : option landmark) : outcome float :=
  match p1, p2 with
  | Some a, Some b =>
      Return (PrimFloat.sqrt (pow2 (x a - x b) + pow2 (y a - y b) + pow2 (z a - z b)))
  | _, _ => TypeError
  end.

(** [fingerIndices]: [{tip, mcp}] for index, middle, ring and pinky. *)
Definition fingerIndices : list (nat * nat) :=
  [(8, 5); (12, 9); (16, 13); (20, 17)]%nat.

(** One iteration of the [forEach] body: [dTip], [dMcp] and the test
    [dTip > dMcp * 1.5] incrementing [extendedCount]. *)
Definition finger_step (landmarks : list landmark) (wrist : option landmark)
    (extendedCount : nat) (f : nat * nat) : outcome nat :=
  let '(tip, mcp) := f in
  dTip <- dist (lookup landmarks tip) wrist ;;
  dMcp <- dist (lookup landmarks mcp) wrist ;;
  Return (if dMcp * 1.5 <? dTip then S extendedCount else extendedCount).

(** [fingerIndices.forEach(...)]: every iteration runs, an exception in any
    of them propagates. *)
Fixpoint forEach_fingers (landmarks : list landmark) (wrist : option landmark)
    (fs : list (nat * nat)) (extendedCount : nat) : outcome nat :=
  match fs with
  | [] => Return extendedCount
  | f :: fs' =>
      c <- finger_step landmarks wrist extendedCount f ;;
      forEach_fingers landmarks wrist fs' c
  end.

(** [detectGesture(landmarks)]; [None] is [null]/[undefined]. *)
Definition detectGesture (landmarks : option (list landmark)) : outcome string :=
  match landmarks with
  | None => Return "none"%string
  | Some [] => Return "none"%string
  | Some lm =>
      let wrist := lookup lm 0 in
      extendedCount <- forEach_fingers lm wrist fingerIndices 0 ;;
      if 3 <=? extendedCount then Return "open"%string
      else if extendedCount <=? 1 then Return "closed"%string
      else Return "none"%string
  end%nat.

End MainJs.

(* ------------------------------------------------------------------ *)
(** ** The classifier as the spec words it (C1) *)

Module ClassifierSpec.
Import MainJs.
Open Scope float_scope.

Definition origin : landmark := mkLandmark 0 0 0.

(** 3D Euclidean distance of two landmarks. *)
Definition euclid3 (a b : landmark) : float :=
  PrimFloat.sqrt ((x a - x b) * (x a - x b) + (y a - y b) * (y a - y b)
        + (z a - z b) * (z a - z b)).

(** A finger (tip, knuckle) is extended iff [dTip > dMcp * 1.5], both
    distances measured to the wrist (landmark 0). *)
Definition extended (hand : list landmark) (tip mcp : nat) : bool :=
  let wrist := nth 0 hand origin in
  euclid3 (nth mcp hand origin) wrist * 1.5 <? euclid3 (nth tip hand origin) wrist.

(** Index (8, 5), middle (12, 9), ring (16, 13) and pinky (20, 17). *)
Definition extendedCount (hand : list landmark) : nat :=
  List.length (filter (fun f => extended hand (fst f) (snd f))
            [(8, 5); (12, 9); (16, 13); (20, 17)]%nat).

End ClassifierSpec.

(* ------------------------------------------------------------------ *)
(** ** [src/script.js]: the global [STATE] and the gesture handlers *)

Module ScriptJs.
Import MainJs.
Open Scope float_scope.

Inductive Mode := TREE | SCATTER | FOCUS.
Inductive Gesture := NONE | PINCH | FIST | OPEN.

(** A mesh of [ParticleManager.items], as far as the gesture code sees it:
    its identity (JS object identity) and [userData.type]. *)
Record item := mkItem { item_id : nat; item_type : string }.

Record vec2 := mkVec2 { vx : float; vy : float }.

(** [const STATE = { mode, targetPhoto, handDetected, handRotation, gesture }];
    [targetPhoto = null] (or [undefined]) is [None]. *)
Record STATE_t := mkSTATE {
  mode : Mode;
  targetPhoto : option item;
  handDetected : bool;
  handRotation : vec2;
  gesture : Gesture
}.

(** The mutable world of the handlers: [STATE] and
    [this.particleSystem.items]. *)
Record app := mkApp { STATE : STATE_t; items : list item }.

(** Statements run on the shared state; an exception keeps the writes
    made before it. *)
Definition JS (A : Type) : Type := app -> outcome A * app.

Definition ret {A} (a : A) : JS A := fun s => (Return a, s).
Definition jbind {A B} (m : JS A) (f : A -> JS B) : JS B := fun s =>
  match m s with
  | (Return a, s') => f a s'
  | (TypeError, s') => (TypeError, s')
  end.
Definition modify_STATE (f : STATE_t -> STATE_t) : JS unit := fun s =>
  (Return tt, mkApp (f (STATE s)) (items s)).
Definition get_STATE : JS STATE_t := fun s => (Return (STATE s), s).
Definition lift {A} (m : outcome A) : JS A := fun s => (m, s).

Notation "'let!' x ':=' m 'in' k" := (jbind m (fun x => k))
  (at level 200, x name, m at level 100, k at level 200).

Definition set_mode (m : Mode) (S : STATE_t) : STATE_t :=
  mkSTATE m (targetPhoto S) (handDetected S) (handRotation S) (gesture S).
Definition set_targetPhoto (t : option item) (S : STATE_t) : STATE_t :=
  mkSTATE (mode S) t (handDetected S) (handRotation S) (gesture S).
Definition set_handDetected (b : bool) (S : STATE_t) : STATE_t :=
  mkSTATE (mode S) (targetPhoto S) b (handRotation S) (gesture S).
Definition set_handRotation (r : vec2) (S : STATE_t) : STATE_t :=
  mkSTATE (mode S) (targetPhoto S) (handDetected S) r (gesture S).
Definition set_gesture (g : Gesture) (S : STATE_t) : STATE_t :=
  mkSTATE (mode S) (targetPhoto S) (handDetected S) (handRotation S) g.

(** [const p = lm[i]; ... p.x ...]: reading a coordinate of a landmark past
    the end of the array throws. *)
Definition read (lm : list landmark) (i : nat) : outcome landmark :=
  match nth_error lm i with
  | Some p => Return p
  | None => TypeError
  end.

Definition is_photo (i : item) : bool := String.eqb (item_type i) "PHOTO".

(** [ParticleManager.triggerFocus()] (lines 628-635).  [pick n] is
    [Math.floor(Math.random() * n)]; [photos[k]] past the end is
    [undefined]. *)
Definition triggerFocus (pick : nat -> nat) : JS unit := fun s =>
  let photos := filter is_photo (items s) in
  if (0 <? List.length photos)%nat then
    let target := nth_error photos (pick (List.length photos)) in
    (Return tt, mkApp (set_targetPhoto target (STATE s)) (items s))
  else (Return tt, s).

Section Handlers.

(** [Math.hypot], left abstract: ECMAScript only approximates it. *)
Variable hypot : float -> float -> float.
(** [Math.floor(Math.random() * n)] for the draw of this call. *)
Variable pick : nat -> nat.

(** [tips.forEach(t => avgTipDist += Math.hypot(t.x - wrist.x, t.y - wrist.y))] *)
Fixpoint sumTipDist (lm : list landmark) (wrist : landmark) (tips : list nat)
    (avgTipDist : float) : outcome float :=
  match tips with
  | [] => Return avgTipDist
  | t :: ts =>
      p <- read lm t ;;
      sumTipDist lm wrist ts (avgTipDist + hypot (x p - x wrist) (y p - y wrist))
  end.

(** The part shared by both handlers: [STATE.handDetected = true], the
    hand-rotation lerp and the two distances [pinchDist], [avgTipDist]. *)
Definition handPrelude (lm : list landmark) : JS (float * float) :=
  let! _ := modify_STATE (set_handDetected true) in
  let! palm := lift (read lm 9) in
  let targetRotX := (y palm - 0.5) * 1.5 in
  let targetRotY := (x palm - 0.5) * 2.5 in
  let! S := get_STATE in
  let r := handRotation S in
  let rx := vx r + (targetRotX - vx r) * 0.1 in
  let ry := vy r + (targetRotY - vy r) * 0.1 in
  let! _ := modify_STATE (set_handRotation (mkVec2 rx ry)) in
  let! thumb := lift (read lm 4) in
  let! index := lift (read lm 8) in
  let pinchDist := hypot (x thumb - x index) (y thumb - y index) in
  let! wrist := lift (read lm 0) in
  let! sum := lift (sumTipDist lm wrist [8; 12; 16; 20]%nat 0) in
  ret (pinchDist, sum / 4).

(** [handleGestures] of the first [ChristmasApp] (lines 408-469, the
    definition in effect: it replaces the one at lines 233-287). *)
Definition handleGestures_v2 (landmarks : option (list (list landmark))) : JS unit :=
  match landmarks with
  | Some (lm :: _) =>
      let! d := handPrelude lm in
      let '(pinchDist, avgTipDist) := d in
      if pinchDist <? 0.05 then
        let! _ := modify_STATE (fun S => set_mode FOCUS (set_gesture PINCH S)) in
        triggerFocus pick
      else if 0.45 <? avgTipDist then
        modify_STATE (fun S => set_mode SCATTER (set_gesture OPEN S))
      else if avgTipDist <? 0.25 then
        modify_STATE (fun S => set_mode TREE (set_gesture FIST S))
      else
        let! _ := modify_STATE (set_gesture NONE) in
        let! S := get_STATE in
        match mode S with
        | SCATTER | FOCUS => modify_STATE (set_mode TREE)
        | TREE => ret tt
        end
  | _ =>
      modify_STATE (fun S => set_mode TREE (set_handDetected false S))
  end.

(** [handleGestures] of the second [ChristmasApp] (lines 2496-2543). *)
Definition handleGestures_v3 (landmarks : option (list (list landmark))) : JS unit :=
  match landmarks with
  | Some (lm :: _) =>
      let! d := handPrelude lm in
      let '(pinchDist, avgTipDist) := d in
      if pinchDist <? 0.05 then
        let! _ := modify_STATE (fun S => set_mode FOCUS (set_gesture PINCH S)) in
        triggerFocus pick
      else if avgTipDist <? 0.2 then
        modify_STATE (fun S => set_mode TREE (set_gesture FIST S))
      else if 0.35 <? avgTipDist then
        modify_STATE (fun S => set_mode SCATTER (set_gesture OPEN S))
      else
        modify_STATE (set_gesture NONE)
  | _ =>
      modify_STATE (set_handDetected false)
  end.

End Handlers.

(** [pinchDist] as the handlers compute it:
    [Math.hypot(thumb.x - index.x, thumb.y - index.y)] with [thumb = lm[4]]
    and [index = lm[8]]. *)
Definition pinchDist (hypot : float -> float -> float) (lm : list landmark) : float :=
  let thumb := nth 4 lm ClassifierSpec.origin in
  let index := nth 8 lm ClassifierSpec.origin in
  hypot (x thumb - x index) (y thumb - y index).

(** The initial [STATE]: [mode: 'TREE'], [targetPhoto: null],
    [handDetected: false], [handRotation: new THREE.Vector2(0, 0)],
    [gesture: 'NONE']. *)
Definition STATE0 : STATE_t := mkSTATE TREE None false (mkVec2 0 0) NONE.

(** The modes after each call of a handler on successive detection
    results, as [predictWebcam]'s [renderLoop] feeds them. *)
Fixpoint runModes (handler : option (list (list landmark)) -> JS unit)
    (frames : list (option (list (list landmark)))) (s : app) : list Mode :=
  match frames with
  | [] => []
  | f :: fs =>
      let s' := snd (handler f s) in
      mode (STATE s') :: runModes handler fs s'
  end.

(** [STATE.mode] is explained by [STATE.gesture]: SCATTER only with the
    gesture OPEN, FOCUS only with PINCH. *)
Definition mode_agrees (S : STATE_t) : bool :=
  match mode S, gesture S with
  | TREE, _ => true
  | SCATTER, OPEN => true
  | FOCUS, PINCH => true
  | _, _ => false
  end.

End ScriptJs.

(* ------------------------------------------------------------------ *)
(** ** three.js vectors over the reals *)

Module Three.
Open Scope R_scope.

Record vec3 := mkVec3 { x : R; y : R; z : R }.

(** [Vector3.lerp(v, alpha)]: [this.x += (v.x - this.x) * alpha], ... *)
Definition lerp (p v : vec3) (alpha : R) : vec3 :=
  mkVec3 (x p + (x v - x p) * alpha)
         (y p + (y v - y p) * alpha)
         (z p + (z v - z p) * alpha).

(** [THREE.MathUtils.lerp(a, b, t)] *)
Definition lerpR (a b t : R) : R := (1 - t) * a + t * b.

(** GLSL [mix(a, b, t) = a * (1 - t) + b * t]. *)
Definition mix (a b : vec3) (t : R) : vec3 :=
  mkVec3 (x a * (1 - t) + x b * t)
         (y a * (1 - t) + y b * t)
         (z a * (1 - t) + z b * t).

Definition norm (p : vec3) : R := sqrt (x p * x p + y p * y p + z p * z p).

(** Distance of a point from the vertical ([y]) axis. *)
Definition hradius (p : vec3) : R := sqrt (x p * x p + z p * z p).

End Three.

(* ------------------------------------------------------------------ *)
(** ** [src/main.js]: webcam callback, animation loop and vertex shader *)

Module MainLoop.
Import Three.
Open Scope R_scope.

(** [const state = { gesture, targetMix, lastVideoTime }] *)
Record main_state := mkMain {
  gesture : string;
  targetMix : R;
  lastVideoTime : R
}.

(** The body of [predictWebcam] (lines 396-425) for one call:
    [ready] is [handLandmarker] being set, [currentTime] is
    [video.currentTime], [results] the [landmarks] field of
    [handLandmarker.detectForVideo(...)].  An exception of [detectGesture]
    ends the call ([TypeError]). *)
Definition predictWebcam (ready : bool) (currentTime : R)
    (results : option (list (list MainJs.landmark))) (s : main_state)
    : outcome main_state :=
  if (ready && (if Req_EM_T currentTime (lastVideoTime s) then false else true))%bool then
    match results with
    | Some (lm :: _) =>
        g <- MainJs.detectGesture (Some lm) ;;
        let t := if String.eqb g "open" then 1
                 else if String.eqb g "closed" then 0
                 else targetMix s in
        Return (mkMain g t currentTime)
    | _ =>
        Return (mkMain "none" (Rmax 0 (targetMix s - 0.02)) currentTime)
    end
  else Return s.

(** The uniforms the animation loop writes. *)
Record uniforms := mkUniforms { uTime : R; uMix : R }.

(** [particleMaterial.uniforms]: [uTime: 0], [uMix: 0.0]. *)
Definition uniforms0 : uniforms := mkUniforms 0 0.

(** One call of [animate] (lines 442-457) as far as the uniforms go. *)
Definition animate (s : main_state) (u : uniforms) : uniforms :=
  mkUniforms (uTime u + 0.01) (uMix u + (targetMix s - uMix u) * 0.05).

Fixpoint animate_n (n : nat) (s : main_state) (u : uniforms) : uniforms :=
  match n with
  | O => u
  | S n' => animate_n n' s (animate s u)
  end.

(** The initial [state]: [gesture: 'loading'], [targetMix: 0.0],
    [lastVideoTime: -1]. *)
Definition state0 : main_state := mkMain "loading" 0 (-1).

(** Successive calls of [predictWebcam] once [handLandmarker] is set, one
    per [(video.currentTime, results.landmarks)].  The next call is
    requested by the last statement of the body, so a call that throws
    ends the loop. *)
Fixpoint predictWebcam_run
    (frames : list (R * option (list (list MainJs.landmark)))) (s : main_state)
    : outcome main_state :=
  match frames with
  | [] => Return s
  | (t, results) :: fs =>
      s' <- predictWebcam true t results s ;;
      predictWebcam_run fs s'
  end.

(** The values [state.gesture] is documented to take. *)
Definition gesture_known (g : string) : Prop :=
  g = "loading"%string \/ g = "open"%string \/ g = "closed"%string \/ g = "none"%string.

(** Video times each different from the one before (a playing video). *)
Fixpoint new_times (last : R) (ts : list R) : Prop :=
  match ts with
  | [] => True
  | t :: ts' => t <> last /\ new_times t ts'
  end.

Section Shader.

(** [snoise] of the shader, left abstract. *)
Variable snoise : vec3 -> R.

(** [mix(position, targetPosition, t)] of the shader's [main]. *)
Definition basePos (uMix : R) (position targetPosition : vec3) : vec3 :=
  mix position targetPosition uMix.

(** The vertex shader's [main] (lines 208-240) up to [pos], the
    object-space position handed to [modelViewMatrix]. *)
Definition vertexPos (uTime uMix : R) (position targetPosition aRandom : vec3) : vec3 :=
  let t := uMix in
  let pos := basePos t position targetPosition in
  let noiseScale := 0.1 in
  let noiseTime := uTime * 0.5 in
  let nX := snoise (mkVec3 (x pos * noiseScale) (y pos * noiseScale) (noiseTime + x aRandom)) in
  let nY := snoise (mkVec3 (x pos * noiseScale) (y pos * noiseScale) (noiseTime + y aRandom + 10)) in
  let nZ := snoise (mkVec3 (x pos * noiseScale) (y pos * noiseScale) (noiseTime + z aRandom + 20)) in
  let turbulence := t * 2 in
  let pos := mkVec3 (x pos + nX * turbulence) (y pos + nY * turbulence) (z pos + nZ * turbulence) in
  if Rlt_dec t 0.5 then
    let rot := uTime * 0.1 in
    let cx := x pos * cos rot - z pos * sin rot in
    let cz := x pos * sin rot + z pos * cos rot in
    mkVec3 cx (y pos) cz
  else pos.

(** [pos] of the shader's [main] just before the [t < 0.5] rotation. *)
Definition displaced (uTime uMix : R) (position targetPosition aRandom : vec3) : vec3 :=
  let t := uMix in
  let pos := basePos t position targetPosition in
  let noiseScale := 0.1 in
  let noiseTime := uTime * 0.5 in
  let nX := snoise (mkVec3 (x pos * noiseScale) (y pos * noiseScale) (noiseTime + x aRandom)) in
  let nY := snoise (mkVec3 (x pos * noiseScale) (y pos * noiseScale) (noiseTime + y aRandom + 10)) in
  let nZ := snoise (mkVec3 (x pos * noiseScale) (y pos * noiseScale) (noiseTime + z aRandom + 20)) in
  let turbulence := t * 2 in
  mkVec3 (x pos + nX * turbulence) (y pos + nY * turbulence) (z pos + nZ * turbulence).

End Shader.

End MainLoop.

(* ------------------------------------------------------------------ *)
(** ** [src/script.js]: [ParticleManager] (lines 501-690) *)

Module Particles.
Import Three.
Open Scope R_scope.

(** [calculateScatterPos()] (lines 615-626); [u1], [u2], [u3] are the
    three [Math.random()] draws in call order. *)
Definition calculateScatterPos (u1 u2 u3 : R) : vec3 :=
  let r := 10 + u1 * 15 in
  let theta := u2 * PI * 2 in
  let phi := acos ((u3 * 2) - 1) in
  mkVec3 (r * sin phi * cos theta) (r * sin phi * sin theta) (r * cos phi).

(** [Math.floor(u * n)] for a draw [u] of [Math.random()]. *)
Definition floorRandom (u : R) (n : nat) : nat := Z.to_nat (Int_part (u * INR n)).

(** The items the constructor creates: [count] decorations of type
    ['PARTICLE'] and then the default photo ([createDefaultPhoto] ->
    [addPhoto]); an item's identity is its creation index. *)
Definition constructorItems (count : nat) : list ScriptJs.item :=
  map (fun i => ScriptJs.mkItem i "PARTICLE") (seq 0 count)
  ++ [ScriptJs.mkItem count "PHOTO"].

(** [addPhoto(texture)]: [this.items.push(mesh)] of a new ['PHOTO']. *)
Definition addPhoto (items : list ScriptJs.item) : list ScriptJs.item :=
  items ++ [ScriptJs.mkItem (List.length items) "PHOTO"].

Fixpoint addPhotos (k : nat) (items : list ScriptJs.item) : list ScriptJs.item :=
  match k with
  | O => items
  | S k' => addPhotos k' (addPhoto items)
  end.

(** A mesh of [this.items] with what [update] reads and writes:
    [position], [rotation] (Euler angles), [scale.x] and [userData]. *)
Record mesh := mkMesh {
  m_item : ScriptJs.item;
  position : vec3;
  rotation : vec3;
  scale : R;
  treePos : vec3;
  scatterPos : vec3;
  rotationSpeed : vec3
}.

Definition is_target (targetPhoto : option ScriptJs.item) (m : mesh) : bool :=
  match targetPhoto with
  | Some t => Nat.eqb (ScriptJs.item_id t) (ScriptJs.item_id (m_item m))
  | None => false
  end.

Section Update.

(** The rotation [mesh.lookAt(0, 2, 45)] gives a mesh at a position. *)
Variable lookAtRotation : vec3 -> vec3.

(** The [forEach] body of [update(delta, time, mode)] for one mesh. *)
Definition updateMesh (delta : R) (mode : ScriptJs.Mode)
    (targetPhoto : option ScriptJs.item) (m : mesh) : mesh :=
  let lerpFactor := 2 * delta in
  let '(targetPos, rot, targetScale) :=
    match mode with
    | ScriptJs.TREE => (treePos m, rotation m, 1)
    | ScriptJs.SCATTER =>
        (scatterPos m,
         mkVec3 (x (rotation m) + x (rotationSpeed m) * delta)
                (y (rotation m) + y (rotationSpeed m) * delta)
                (z (rotation m)),
         1)
    | ScriptJs.FOCUS =>
        if is_target targetPhoto m
        then (mkVec3 0 2 35, lookAtRotation (position m), 4)
        else (scatterPos m, rotation m, 1)
    end in
  let pos := lerp (position m) targetPos lerpFactor in
  let currentScale := scale m in
  let s := if Rlt_dec 0.01 (Rabs (currentScale - targetScale))
           then lerpR currentScale targetScale lerpFactor
           else currentScale in
  mkMesh (m_item m) pos rot s (treePos m) (scatterPos m) (rotationSpeed m).

(** The current target of a mesh in [updateMesh]. *)
Definition modeTarget (mode : ScriptJs.Mode) (targetPhoto : option ScriptJs.item)
    (m : mesh) : vec3 :=
  match mode with
  | ScriptJs.TREE => treePos m
  | ScriptJs.SCATTER => scatterPos m
  | ScriptJs.FOCUS => if is_target targetPhoto m then mkVec3 0 2 35 else scatterPos m
  end.


(** The [targetScale] of a mesh in [updateMesh]. *)
Definition modeScale (mode : ScriptJs.Mode) (targetPhoto : option ScriptJs.item)
    (m : mesh) : R :=
  match mode with
  | ScriptJs.FOCUS => if is_target targetPhoto m then 4 else 1
  | _ => 1
  end.

(** [n] frames of the same length [delta] in the same mode. *)
Fixpoint updateMesh_n (n : nat) (delta : R) (mode : ScriptJs.Mode)
    (targetPhoto : option ScriptJs.item) (m : mesh) : mesh :=
  match n with
  | O => m
  | S n' => updateMesh_n n' delta mode targetPhoto (updateMesh delta mode targetPhoto m)
  end.

End Update.

(** [CONFIG.treeHeight], [CONFIG.treeRadius] *)
Definition treeHeight : R := 25.
Definition treeRadius : R := 10.

(** [calculateTreePos(i, total, surfaceOnly)] (lines 589-613); [u] is the
    [Math.random()] draw of the volume fill, not made when [surfaceOnly]. *)
Definition calculateTreePos (i total : R) (surfaceOnly : bool) (u : R) : vec3 :=
  let t := i / total in
  let angle := t * PI * 2 * 12 in
  let y := (t * treeHeight) - (treeHeight / 2) in
  let progress := 1 - t in
  let r := progress * treeRadius in
  let r := if surfaceOnly then r else r * sqrt u in
  mkVec3 (cos angle * r) y (sin angle * r).

End Particles.

(* ------------------------------------------------------------------ *)
(** ** [src/main.js]: particle attributes, fragment shader;
       [src/script.js]: scene rotation of [ChristmasApp.animate] *)

Module Scene.
Import Three.
Open Scope R_scope.





(** [length(gl_PointCoord.xy - vec2(0.5))] *)
Definition pointRadius (px py : R) : R :=
  sqrt ((px - 0.5) * (px - 0.5) + (py - 0.5) * (py - 0.5)).

(** GLSL [pow(g, 1.5)] for [g >= 0] ([pow(0, y) = 0] for [y > 0]). *)
Definition pow15 (g : R) : R := if Rlt_dec 0 g then Rpower g 1.5 else 0.

(** The fragment shader (lines 254-270): [None] is [discard], otherwise
    the alpha [vAlpha * glow] of [gl_FragColor]. *)
Definition fragment (px py vAlpha : R) : option R :=
  let r := pointRadius px py in
  if Rlt_dec 0.5 r then None
  else
    let glow := 1 - (r * 2) in
    let glow := pow15 glow in
    Some (vAlpha * glow).

(** [mainGroup.rotation] after one [ChristmasApp.animate] (script.js
    lines 471-498): the hand rotation while a hand is detected, otherwise
    the idle spin and float at [clock.getElapsedTime()] = [time]. *)
Definition groupRotation (handDetected : bool) (handRotX handRotY time : R)
    (rot : vec3) : vec3 :=
  if handDetected then mkVec3 handRotX handRotY (z rot)
  else mkVec3 (sin (time * 0.5) * 0.05) (y rot + 0.002) (z rot).

(** Successive frames [(handDetected, handRotation.x, handRotation.y, time)]. *)
Fixpoint groupRotation_run (frames : list (bool * R * R * R)) (rot : vec3) : vec3 :=
  match frames with
  | [] => rot
  | (h, hx, hy, t) :: fs => groupRotation_run fs (groupRotation h hx hy t rot)
  end.

End Scene.

(* ------------------------------------------------------------------ *)
(** ** Sample hands (MediaPipe normalised coordinates) *)

Module Samples.
Import MainJs.
Open Scope float_scope.

(** A hand of 21 landmarks; all points share [x = 0.5], [z = 0]. *)
Definition hand (f : nat -> float) : list landmark :=
  map (fun i => mkLandmark 0.5 (f i) 0) (seq 0 21).

(** Wrist at [y = 0.9], knuckles 0.1 above it, all four finger tips 0.6
    above it, thumb tip ([4]) at [y = 0.7]. *)
Definition open_hand : list landmark :=
  hand (fun i => match i with
                 | 0 => 0.9%float | 4 => 0.7%float
                 | 5 | 9 | 13 | 17 => 0.8%float
                 | 8 | 12 | 16 | 20 => 0.3%float
                 | _ => 0.85%float end)%nat.

(** As [open_hand] with the finger tips only 0.3 from the wrist. *)
Definition neutral_hand : list landmark :=
  hand (fun i => match i with
                 | 0 => 0.9%float | 4 => 0.7%float
                 | 5 | 9 | 13 | 17 => 0.8%float
                 | 8 | 12 | 16 | 20 => 0.6%float
                 | _ => 0.85%float end)%nat.

(** As [open_hand] with the thumb tip on the index tip. *)
Definition pinched_hand : list landmark :=
  hand (fun i => match i with
                 | 0 => 0.9%float
                 | 5 | 9 | 13 | 17 => 0.8%float
                 | 4 | 8 | 12 | 16 | 20 => 0.3%float
                 | _ => 0.85%float end)%nat.

(** 21 landmarks whose coordinates are all NaN. *)
Definition nan_hand : list landmark :=
  map (fun _ => mkLandmark nan nan nan) (seq 0 21).

(** A single landmark. *)
Definition short_hand : list landmark := [mkLandmark 0.5 0.9 0].

(** Detection results for four frames: OPEN, OPEN, then two ambiguous
    hands. *)
Definition open_open_none_none : list (option (list (list landmark))) :=
  [Some [open_hand]; Some [open_hand]; Some [neutral_hand]; Some [neutral_hand]].

(** A [Math.hypot]: exact when one argument is zero, the rounded
    square root of the sum of squares otherwise. *)
Definition hypot_js (a b : float) : float :=
  if a =? 0 then PrimFloat.abs b
  else if b =? 0 then PrimFloat.abs a
  else PrimFloat.sqrt (a * a + b * b).

End Samples.

(* ================================================================== *)
(** * Proofs *)

Module ClassifierProofs.
Import MainJs ClassifierSpec.

Lemma lookup_in (lm : list landmark) (i : nat) :
  (i < List.length lm)%nat -> lookup lm i = Some (nth i lm origin).
Proof.
  revert i; induction lm as [|a lm IH]; intros [|i] Hi; simpl in *;
    try lia; auto.
  apply IH; lia.
Qed.

Lemma lookup_out (lm : list landmark) (i : nat) :
  (List.length lm <= i)%nat -> lookup lm i = None.
Proof. intros H; apply nth_error_None; exact H. Qed.

Lemma dist_euclid3 (a b : landmark) :
  dist (Some a) (Some b) = Return (euclid3 a b).
Proof. reflexivity. Qed.

(** The [forEach] loop counts the extended fingers of [fs]. *)
Lemma forEach_fingers_count (lm : list landmark) (fs : list (nat * nat)) (acc : nat) :
  Forall (fun f => fst f < List.length lm /\ snd f < List.length lm)%nat fs ->
  forEach_fingers lm (lookup lm 0) fs acc
  = Return (acc + List.length (filter (fun f => extended lm (fst f) (snd f)) fs))%nat.
Proof.
  intros Hall. revert acc.
  induction Hall as [|[tip mcp] fs [Ht Hm] Hall IH]; intros acc;
    cbn [forEach_fingers filter fst snd List.length].
  - f_equal; lia.
  - cbn [fst snd] in Ht, Hm.
    assert (H0 : (0 < List.length lm)%nat) by lia.
    unfold finger_step.
    rewrite (lookup_in lm 0 H0), (lookup_in lm tip Ht), (lookup_in lm mcp Hm).
    rewrite !dist_euclid3; cbn [bind].
    replace (euclid3 (nth mcp lm origin) (nth 0 lm origin) * 1.5
             <? euclid3 (nth tip lm origin) (nth 0 lm origin))%float
      with (extended lm tip mcp) by reflexivity.
    rewrite <- (lookup_in lm 0 H0).
    destruct (extended lm tip mcp); rewrite IH; cbn [List.length]; f_equal; lia.
Qed.

(** On a hand of at least 21 landmarks the classifier returns the verdict
    of [extendedCount]. *)
Lemma detectGesture_full (lm : list landmark) :
  (21 <= List.length lm)%nat ->
  detectGesture (Some lm)
  = (if 3 <=? extendedCount lm then Return "open"%string
     else if extendedCount lm <=? 1 then Return "closed"%string
     else Return "none"%string)%nat.
Proof.
  intros H.
  destruct lm as [|a lm']; [simpl in H; lia|].
  unfold detectGesture.
  rewrite forEach_fingers_count.
  - reflexivity.
  - unfold fingerIndices.
    repeat (apply Forall_cons; [cbn [fst snd]; split; lia|]).
    apply Forall_nil.
Qed.

(** C1: on a full hand of 21 landmarks, with a finger extended iff its
    tip-to-wrist distance exceeds 1.5 times its knuckle-to-wrist distance,
    [detectGesture] returns OPEN for at least 3 extended fingers, CLOSED
    for at most 1 and NONE for exactly 2. *)
Theorem detectGesture_by_extended_count (lm : list landmark) (H : List.length lm = 21%nat) :
  (3 <= extendedCount lm -> detectGesture (Some lm) = Return "open"%string) /\
  (extendedCount lm <= 1 -> detectGesture (Some lm) = Return "closed"%string) /\
  (extendedCount lm = 2 -> detectGesture (Some lm) = Return "none"%string)%nat.
Proof.
  rewrite (detectGesture_full lm) by lia.
  repeat split; intros Hn.
  - destruct (Nat.leb_spec 3 (extendedCount lm)); [reflexivity | lia].
  - destruct (Nat.leb_spec 3 (extendedCount lm)); [lia|].
    destruct (Nat.leb_spec (extendedCount lm) 1); [reflexivity | lia].
  - destruct (Nat.leb_spec 3 (extendedCount lm)); [lia|].
    destruct (Nat.leb_spec (extendedCount lm) 1); [lia | reflexivity].
Qed.

(** Witness of C1 on [open_hand], whose four fingers are extended. *)
Lemma detectGesture_by_extended_count_witness :
  List.length Samples.open_hand = 21%nat /\
  detectGesture (Some Samples.open_hand) = Return "open"%string.
Proof.
  split; [reflexivity|].
  apply (proj1 (detectGesture_by_extended_count Samples.open_hand eq_refl)).
  apply Nat.leb_le; vm_compute; reflexivity.
Defined.

(** An extended-finger check that meets a missing landmark throws. *)
Lemma finger_step_missing (lm : list landmark) (w : landmark) (acc tip mcp : nat) :
  (List.length lm <= tip \/ List.length lm <= mcp)%nat ->
  finger_step lm (Some w) acc (tip, mcp) = TypeError.
Proof.
  intros [Ht | Hm]; unfold finger_step.
  - rewrite (lookup_out lm tip Ht); reflexivity.
  - destruct (lookup lm tip); [|reflexivity].
    rewrite (lookup_out lm mcp Hm); reflexivity.
Qed.

(** [forEach] does not stop early: one missing landmark throws. *)
Lemma forEach_fingers_missing (lm : list landmark) (w : landmark)
    (fs : list (nat * nat)) (acc : nat) :
  Exists (fun f => List.length lm <= fst f \/ List.length lm <= snd f)%nat fs ->
  forEach_fingers lm (Some w) fs acc = TypeError.
Proof.
  intros Hex; revert acc.
  induction Hex as [[tip mcp] fs Hbad | [tip mcp] fs Hex IH]; intros acc;
    cbn [forEach_fingers].
  - rewrite (finger_step_missing lm w acc tip mcp Hbad); reflexivity.
  - destruct (finger_step lm (Some w) acc (tip, mcp)); cbn [bind]; auto.
Qed.

(** C3 (as the code has it): [null], [undefined] or an empty list gives
    NONE; a non-empty list shorter than 21 landmarks makes [detectGesture]
    throw a [TypeError]; a list of 21 or more landmarks is classified by the
    finger comparisons alone, with no check for NaN coordinates. *)
Theorem detectGesture_absent_and_degenerate :
  detectGesture None = Return "none"%string /\
  detectGesture (Some []) = Return "none"%string /\
  (forall lm, lm <> [] -> (List.length lm < 21)%nat ->
     detectGesture (Some lm) = TypeError) /\
  (forall lm, (21 <= List.length lm)%nat ->
     detectGesture (Some lm)
     = (if 3 <=? extendedCount lm then Return "open"%string
        else if extendedCount lm <=? 1 then Return "closed"%string
        else Return "none"%string)%nat).
Proof.
  split; [reflexivity|]. split; [reflexivity|]. split.
  - intros [|a lm] Hne Hlen; [congruence|].
    unfold detectGesture.
    rewrite (lookup_in (a :: lm) 0) by (cbn [List.length]; lia).
    rewrite forEach_fingers_missing; [reflexivity|].
    unfold fingerIndices.
    do 3 apply Exists_cons_tl. apply Exists_cons_hd. cbn [fst snd]. lia.
  - exact detectGesture_full.
Qed.

(** Witness of C3 on the one-landmark list. *)
Lemma detectGesture_absent_and_degenerate_witness :
  detectGesture (Some Samples.short_hand) = TypeError.
Proof.
  apply (proj1 (proj2 (proj2 detectGesture_absent_and_degenerate)));
    [discriminate | vm_compute; lia].
Defined.

(** C3 fails as stated: a one-landmark list throws, and an all-NaN hand is
    classified CLOSED, not NONE. *)
Lemma detectGesture_degenerate_not_none :
  detectGesture (Some Samples.short_hand) = TypeError /\
  detectGesture (Some Samples.nan_hand) = Return "closed"%string.
Proof. split; vm_compute; reflexivity. Qed.

(** C2 fails for [detectGesture] of [main.js]: thumb tip on index tip (2D
    distance 0), yet the result is OPEN; the function has no pinch test. *)
Lemma detectGesture_pinch_is_open :
  let thumb := nth 4 Samples.pinched_hand ClassifierSpec.origin in
  let index := nth 8 Samples.pinched_hand ClassifierSpec.origin in
  (PrimFloat.sqrt ((x thumb - x index) * (x thumb - x index)
                   + (y thumb - y index) * (y thumb - y index)) <? 0.05)%float = true /\
  detectGesture (Some Samples.pinched_hand) = Return "open"%string.
Proof. split; vm_compute; reflexivity. Qed.

End ClassifierProofs.

Module HandlerProofs.
Import MainJs ScriptJs.

Lemma read_in (lm : list landmark) (i : nat) :
  (i < List.length lm)%nat -> read lm i = Return (nth i lm ClassifierSpec.origin).
Proof.
  intros H; unfold read.
  change (nth_error lm i) with (lookup lm i).
  rewrite (ClassifierProofs.lookup_in lm i H); reflexivity.
Qed.

Lemma sumTipDist_ok (hypot : float -> float -> float) (lm : list landmark)
    (w : landmark) (tips : list nat) (acc : float) :
  Forall (fun t => t < List.length lm)%nat tips ->
  exists v, sumTipDist hypot lm w tips acc = Return v.
Proof.
  intros Hall; revert acc.
  induction Hall as [|t ts Ht Hall IH]; intros acc; cbn [sumTipDist].
  - eexists; reflexivity.
  - rewrite (read_in lm t Ht); cbn [bind]. apply IH.
Qed.

(** On a full hand the prelude does not throw, returns [pinchDist] and
    touches neither [mode], [gesture], [targetPhoto] nor the items. *)
Lemma handPrelude_ok (hypot : float -> float -> float) (lm : list landmark) (s : app) :
  (21 <= List.length lm)%nat ->
  exists avg S',
    handPrelude hypot lm s = (Return (pinchDist hypot lm, avg), mkApp S' (items s)) /\
    mode S' = mode (STATE s) /\ gesture S' = gesture (STATE s) /\
    targetPhoto S' = targetPhoto (STATE s).
Proof.
  intros H.
  destruct (sumTipDist_ok hypot lm (nth 0 lm ClassifierSpec.origin) [8; 12; 16; 20]%nat 0)
    as [v Hv].
  { repeat constructor; lia. }
  unfold handPrelude, jbind, modify_STATE, get_STATE, lift, ret.
  rewrite (read_in lm 9), (read_in lm 4), (read_in lm 8), (read_in lm 0) by lia.
  rewrite Hv.
  eexists; eexists; split; [reflexivity|].
  destruct s as [[m t h r g] its]; repeat split.
Qed.

(** [triggerFocus] only writes [STATE.targetPhoto]. *)
Lemma triggerFocus_keeps (pick : nat -> nat) (s : app) :
  fst (triggerFocus pick s) = Return tt /\
  mode (STATE (snd (triggerFocus pick s))) = mode (STATE s) /\
  gesture (STATE (snd (triggerFocus pick s))) = gesture (STATE s) /\
  items (snd (triggerFocus pick s)) = items s.
Proof.
  unfold triggerFocus.
  destruct (0 <? List.length (filter is_photo (items s)))%nat; repeat split.
Qed.

(** [detectGesture] of [main.js] only ever returns these three strings. *)
Lemma detectGesture_range (l : option (list landmark)) (g : string) :
  detectGesture l = Return g ->
  g = "open"%string \/ g = "closed"%string \/ g = "none"%string.
Proof.
  unfold detectGesture.
  destruct l as [[|a lm]|]; try (intros H; injection H; intros <-; auto).
  destruct (forEach_fingers (a :: lm) (lookup (a :: lm) 0) fingerIndices 0);
    cbn [bind]; [|discriminate].
  destruct (3 <=? a0)%nat; [intros H; injection H; intros <-; auto|].
  destruct (a0 <=? 1)%nat; intros H; injection H; intros <-; auto.
Qed.

(** C2 (as the code has it): in both [script.js] handlers the pinch test
    comes first, so a full hand whose thumb-index 2D distance is below
    0.05 gets gesture PINCH and mode FOCUS whatever its other fingers do;
    [detectGesture] of [main.js] has no pinch test and returns only
    "open", "closed" or "none". *)
Theorem handleGestures_pinch_first (hypot : float -> float -> float)
    (pick : nat -> nat) (lm : list landmark) (rest : list (list landmark)) (s : app)
    (H : (21 <= List.length lm)%nat) (Hp : (pinchDist hypot lm <? 0.05) = true) :
  (fst (handleGestures_v2 hypot pick (Some (lm :: rest)) s) = Return tt /\
   gesture (STATE (snd (handleGestures_v2 hypot pick (Some (lm :: rest)) s))) = PINCH /\
   mode (STATE (snd (handleGestures_v2 hypot pick (Some (lm :: rest)) s))) = FOCUS) /\
  (fst (handleGestures_v3 hypot pick (Some (lm :: rest)) s) = Return tt /\
   gesture (STATE (snd (handleGestures_v3 hypot pick (Some (lm :: rest)) s))) = PINCH /\
   mode (STATE (snd (handleGestures_v3 hypot pick (Some (lm :: rest)) s))) = FOCUS) /\
  (forall l g, detectGesture l = Return g ->
     g = "open"%string \/ g = "closed"%string \/ g = "none"%string).
Proof.
  destruct (handPrelude_ok hypot lm s H) as [avg [S' [Hpre _]]].
  set (s1 := mkApp (set_mode FOCUS (set_gesture PINCH S')) (items s)).
  assert (E2 : handleGestures_v2 hypot pick (Some (lm :: rest)) s = triggerFocus pick s1).
  { unfold handleGestures_v2, jbind at 1; rewrite Hpre; cbv beta iota.
    rewrite Hp; reflexivity. }
  assert (E3 : handleGestures_v3 hypot pick (Some (lm :: rest)) s = triggerFocus pick s1).
  { unfold handleGestures_v3, jbind at 1; rewrite Hpre; cbv beta iota.
    rewrite Hp; reflexivity. }
  rewrite E2, E3.
  destruct (triggerFocus_keeps pick s1) as [H1 [H2 [H3 _]]].
  rewrite H1, H2, H3.
  repeat split; exact detectGesture_range.
Qed.

(** Witness of C2 on [pinched_hand], whose four fingers are extended. *)
Lemma handleGestures_pinch_first_witness :
  (21 <= List.length Samples.pinched_hand)%nat /\
  (pinchDist Samples.hypot_js Samples.pinched_hand <? 0.05) = true /\
  gesture (STATE (snd (handleGestures_v2 Samples.hypot_js (fun _ => 0%nat)
                         (Some [Samples.pinched_hand]) (mkApp STATE0 [])))) = PINCH.
Proof.
  split; [vm_compute; lia|]. split; [vm_compute; reflexivity|].
  apply (handleGestures_pinch_first Samples.hypot_js (fun _ => 0%nat)
           Samples.pinched_hand [] (mkApp STATE0 [])).
  - vm_compute; lia.
  - vm_compute; reflexivity.
Defined.

(** In the handler of lines 408-469 a full hand classified NONE always
    leaves the mode TREE (auto-recovery from SCATTER and FOCUS). *)
Lemma handleGestures_v2_none_to_tree (hypot : float -> float -> float)
    (pick : nat -> nat) (lm : list landmark) (rest : list (list landmark)) (s : app) :
  (21 <= List.length lm)%nat ->
  gesture (STATE (snd (handleGestures_v2 hypot pick (Some (lm :: rest)) s))) = NONE ->
  mode (STATE (snd (handleGestures_v2 hypot pick (Some (lm :: rest)) s))) = TREE.
Proof.
  intros H.
  destruct (handPrelude_ok hypot lm s H) as [avg [S' [Hpre _]]].
  unfold handleGestures_v2, jbind, modify_STATE, get_STATE, ret; cbv beta.
  rewrite Hpre; cbv beta iota; cbn [STATE items].
  destruct (pinchDist hypot lm <? 0.05).
  - match goal with |- context [triggerFocus pick ?a] =>
      destruct (triggerFocus_keeps pick a) as [_ [_ [Hg _]]] end.
    rewrite Hg; cbn; discriminate.
  - destruct (0.45 <? avg); [discriminate|].
    destruct (avg <? 0.25); [reflexivity|].
    destruct S' as [m t h r g]; cbn; destruct m; reflexivity.
Qed.

(** In both handlers of [script.js] only the first landmark list counts. *)
Lemma handleGestures_v2_no_hand (hypot : float -> float -> float)
    (pick : nat -> nat) (s : app) :
  mode (STATE (snd (handleGestures_v2 hypot pick None s))) = TREE /\
  mode (STATE (snd (handleGestures_v2 hypot pick (Some []) s))) = TREE.
Proof. split; reflexivity. Qed.

Section Frames.

Variable hypot : float -> float -> float.
(** [Math.hypot(0, d)] is [|d|]. *)
Hypothesis hypot_axis : forall d, hypot 0 d = PrimFloat.abs d.
Variable pick : nat -> nat.

Ltac eval_frame :=
  match goal with s : app |- _ => destruct s as [[?m ? ? [? ?] ?] ?] end;
  cbv; rewrite !hypot_axis; cbv;
  try reflexivity;
  match goal with m : Mode |- _ => destruct m; reflexivity end.

Lemma v2_open_frame (s : app) :
  mode (STATE (snd (handleGestures_v2 hypot pick (Some [Samples.open_hand]) s))) = SCATTER.
Proof. eval_frame. Qed.

Lemma v3_open_frame (s : app) :
  mode (STATE (snd (handleGestures_v3 hypot pick (Some [Samples.open_hand]) s))) = SCATTER.
Proof. eval_frame. Qed.

Lemma v2_neutral_frame (s : app) :
  mode (STATE (snd (handleGestures_v2 hypot pick (Some [Samples.neutral_hand]) s))) = TREE.
Proof. eval_frame. Qed.

Lemma v3_neutral_frame (s : app) :
  mode (STATE (snd (handleGestures_v3 hypot pick (Some [Samples.neutral_hand]) s)))
  = mode (STATE s).
Proof. eval_frame. Qed.

Lemma neutral_frame_is_NONE (s : app) :
  gesture (STATE (snd (handleGestures_v2 hypot pick (Some [Samples.neutral_hand]) s))) = NONE /\
  gesture (STATE (snd (handleGestures_v3 hypot pick (Some [Samples.neutral_hand]) s))) = NONE.
Proof. split; eval_frame. Qed.

Lemma open_frame_is_OPEN (s : app) :
  gesture (STATE (snd (handleGestures_v2 hypot pick (Some [Samples.open_hand]) s))) = OPEN /\
  gesture (STATE (snd (handleGestures_v3 hypot pick (Some [Samples.open_hand]) s))) = OPEN.
Proof. split; eval_frame. Qed.

(** The handler of lines 408-469 recovers: TREE, then OPEN, OPEN, NONE,
    NONE give SCATTER, SCATTER, TREE, TREE. *)
Lemma handleGestures_v2_recovery_run (its : list item) :
  runModes (handleGestures_v2 hypot pick) Samples.open_open_none_none (mkApp STATE0 its)
  = [SCATTER; SCATTER; TREE; TREE].
Proof.
  cbn [runModes Samples.open_open_none_none].
  rewrite !v2_neutral_frame, !v2_open_frame; reflexivity.
Qed.

(** C4 (code_bug): the handler of lines 2496-2543 has no auto-recovery:
    from TREE, the hands classified OPEN, OPEN, NONE, NONE give the modes
    SCATTER, SCATTER, SCATTER, SCATTER. *)
Theorem handleGestures_v3_no_recovery (its : list item) :
  runModes (handleGestures_v3 hypot pick) Samples.open_open_none_none (mkApp STATE0 its)
  = [SCATTER; SCATTER; SCATTER; SCATTER].
Proof.
  cbn [runModes Samples.open_open_none_none].
  rewrite !v3_neutral_frame, !v3_open_frame; reflexivity.
Qed.

End Frames.

(** Witness of C4 with a concrete [Math.hypot]. *)
Lemma handleGestures_v3_no_recovery_witness :
  runModes (handleGestures_v3 Samples.hypot_js (fun _ => 0%nat)) Samples.open_open_none_none
    (mkApp STATE0 []) = [SCATTER; SCATTER; SCATTER; SCATTER].
Proof.
  apply (handleGestures_v3_no_recovery Samples.hypot_js); intros d; reflexivity.
Defined.

(** C5 (code_bug): the handler of lines 2496-2543 only clears
    [handDetected] when no hand is reported; the mode is left as it was,
    so a SCATTER mode stays SCATTER. *)
Theorem handleGestures_v3_no_hand_keeps_mode (hypot : float -> float -> float)
    (pick : nat -> nat) (its : list item) :
  mode (STATE (snd (handleGestures_v3 hypot pick None
                      (mkApp (set_mode SCATTER STATE0) its)))) = SCATTER /\
  mode (STATE (snd (handleGestures_v3 hypot pick (Some [])
                      (mkApp (set_mode SCATTER STATE0) its)))) = SCATTER.
Proof. split; reflexivity. Qed.

End HandlerProofs.


Module MainLoopProofs.
Import Three MainLoop.
Open Scope R_scope.

(** With no hand on a new video frame, [predictWebcam] sets [gesture] to
    "none" and lowers [targetMix] by 0.02, clamped at 0. *)
Lemma predictWebcam_no_hand (currentTime : R) (s : main_state)
    (results : option (list (list MainJs.landmark))) :
  currentTime <> lastVideoTime s ->
  (results = None \/ results = Some []) ->
  predictWebcam true currentTime results s
  = Return (mkMain "none" (Rmax 0 (targetMix s - 0.02)) currentTime).
Proof.
  intros Hne Hr. unfold predictWebcam.
  destruct (Req_EM_T currentTime (lastVideoTime s)) as [E|_]; [contradiction|].
  destruct Hr as [-> | ->]; reflexivity.
Qed.

(** The decay step: never negative, a drop of exactly 0.02 while
    [targetMix >= 0.02], and never more than 0.02. *)
Lemma targetMix_decay (t : R) :
  0 <= Rmax 0 (t - 0.02) /\
  (0.02 <= t -> Rmax 0 (t - 0.02) = t - 0.02) /\
  (0 <= t -> 0 <= t - Rmax 0 (t - 0.02) <= 0.02).
Proof.
  unfold Rmax; destruct (Rle_dec 0 (t - 0.02)); repeat split; intros; lra.
Qed.

Lemma animate_gap (s : main_state) (u : uniforms) :
  targetMix s = 1 -> 1 - uMix (animate s u) = 0.95 * (1 - uMix u).
Proof. intros Ht; unfold animate; cbn [uMix]; rewrite Ht; lra. Qed.

Lemma animate_n_gap (n : nat) (s : main_state) (u : uniforms) :
  targetMix s = 1 -> 1 - uMix (animate_n n s u) = 0.95 ^ n * (1 - uMix u).
Proof.
  intros Ht; revert u; induction n as [|n IH]; intros u; cbn [animate_n].
  - simpl; ring.
  - rewrite IH, animate_gap by exact Ht. simpl; ring.
Qed.

Lemma pow_095_90 : 0.95 ^ 90 < 0.01.
Proof.
  assert (E : 0.95 ^ 90 * 20 ^ 90 = 19 ^ 90).
  { rewrite <- Rpow_mult_distr; f_equal; lra. }
  assert (I : 100 * 19 ^ 90 < 20 ^ 90).
  { rewrite !pow_IZR, <- mult_IZR; apply IZR_lt; vm_compute; reflexivity. }
  assert (P : 0 < 20 ^ 90) by (apply pow_lt; lra).
  set (a := 0.95 ^ 90) in *; set (b := 20 ^ 90) in *; set (c := 19 ^ 90) in *.
  nra.
Qed.

(** C6: with [targetMix = 1] held, the blend [uMix] starting in [0, 1]
    never decreases, its gap to 1 after [n] frames is [0.95 ^ n] times the
    initial gap, it is within 1% of 1 from frame 90 on, and it never
    reaches 1 when it starts below it. *)
Theorem animate_blend_converges (s : main_state) (u : uniforms)
    (Ht : targetMix s = 1) (H0 : 0 <= uMix u <= 1) :
  (forall n, uMix (animate_n n s u) <= uMix (animate_n (S n) s u)) /\
  (forall n, 1 - uMix (animate_n n s u) = 0.95 ^ n * (1 - uMix u)) /\
  (forall n, (90 <= n)%nat -> 1 - uMix (animate_n n s u) < 0.01) /\
  (forall n, uMix u < 1 -> uMix (animate_n n s u) < 1).
Proof.
  assert (Hpos : forall n, 0 < 0.95 ^ n) by (intros; apply pow_lt; lra).
  split; [|split; [|split]].
  - intros n.
    pose proof (animate_n_gap n s u Ht) as G1.
    pose proof (animate_n_gap (S n) s u Ht) as G2.
    cbn [pow] in G2. specialize (Hpos n).
    set (p := 0.95 ^ n) in *. nra.
  - intros n; apply animate_n_gap; exact Ht.
  - intros n Hn.
    rewrite (animate_n_gap n s u Ht).
    replace n with (90 + (n - 90))%nat by lia.
    rewrite pow_add.
    assert (Hle : 0.95 ^ (n - 90) <= 1).
    { rewrite <- (pow1 (n - 90)). apply pow_incr; lra. }
    pose proof (Hpos (n - 90)%nat). pose proof pow_095_90. pose proof (Hpos 90%nat).
    set (a := 0.95 ^ 90) in *; set (b := 0.95 ^ (n - 90)) in *.
    assert (Hab : 0 <= a * b <= a) by nra.
    assert (Habg : a * b * (1 - uMix u) <= a * b) by nra.
    lra.
  - intros n Hlt.
    pose proof (animate_n_gap n s u Ht). specialize (Hpos n).
    set (p := 0.95 ^ n) in *. nra.
Qed.

(** Witness of C6 from the initial uniforms with [targetMix = 1]. *)
Lemma animate_blend_converges_witness :
  1 - uMix (animate_n 90 (mkMain "open" 1 0) uniforms0) < 0.01.
Proof.
  apply (animate_blend_converges (mkMain "open" 1 0) uniforms0);
    [reflexivity | cbn; lra | lia].
Defined.

(** C7: at [uMix = 0] and [uTime = 0] the vertex shader leaves every
    particle at its rest position, whatever the noise. *)
Theorem vertexPos_rest (snoise : vec3 -> R) (position targetPosition aRandom : vec3) :
  vertexPos snoise 0 0 position targetPosition aRandom = position.
Proof.
  unfold vertexPos, basePos, mix.
  destruct (Rlt_dec 0 0.5) as [_|n]; [|lra].
  replace (0 * 0.1) with 0 by ring.
  rewrite cos_0, sin_0.
  destruct position as [px py pz]; cbn [x y z].
  f_equal; ring.
Qed.

End MainLoopProofs.

Module ParticleProofs.
Import Three Particles.
Open Scope R_scope.

(** C8: for draws [u1], [u3] in [0, 1) (and any [u2]), the scatter
    position lies at distance [r = 10 + 15 u1] from the origin, in
    [10, 25); its height is [r (2 u3 - 1)], affine in the uniform [u3]
    (inclination [acos (2 u3 - 1)], Archimedes' uniform-sphere sampling),
    its azimuth is [2 pi u2]; and every radius of [10, 25) is reached. *)
Theorem calculateScatterPos_shell (u1 u2 u3 : R)
    (H1 : 0 <= u1 < 1) (H3 : 0 <= u3 < 1) :
  let r := 10 + u1 * 15 in
  let p := calculateScatterPos u1 u2 u3 in
  norm p = r /\ 10 <= norm p < 25 /\
  z p = r * (u3 * 2 - 1) /\
  x p = r * sin (acos (u3 * 2 - 1)) * cos (u2 * PI * 2) /\
  y p = r * sin (acos (u3 * 2 - 1)) * sin (u2 * PI * 2) /\
  (forall d, 10 <= d < 25 ->
     exists v, 0 <= v < 1 /\ norm (calculateScatterPos v u2 u3) = d).
Proof.
  assert (Hnorm : forall v, 0 <= v -> norm (calculateScatterPos v u2 u3) = 10 + v * 15).
  { intros v Hv. unfold norm, calculateScatterPos; cbn [x y z].
    set (r := 10 + v * 15). set (phi := acos (u3 * 2 - 1)). set (th := u2 * PI * 2).
    replace (r * sin phi * cos th * (r * sin phi * cos th)
             + r * sin phi * sin th * (r * sin phi * sin th)
             + r * cos phi * (r * cos phi))
      with (r * r * ((sin phi)² * ((sin th)² + (cos th)²) + (cos phi)²))
      by (unfold Rsqr; ring).
    rewrite sin2_cos2, Rmult_1_r, sin2_cos2, Rmult_1_r.
    apply sqrt_square; unfold r; lra. }
  cbv zeta. split; [|split; [|split; [|split; [|split]]]].
  - apply Hnorm; lra.
  - rewrite Hnorm by lra; lra.
  - unfold calculateScatterPos; cbn [z].
    rewrite cos_acos by lra; reflexivity.
  - reflexivity.
  - reflexivity.
  - intros d Hd. exists ((d - 10) / 15). split; [split; unfold Rdiv; lra|].
    rewrite Hnorm by (unfold Rdiv; lra). field.
Qed.

(** Witness of C8 at the smallest draws. *)
Lemma calculateScatterPos_shell_witness :
  norm (calculateScatterPos 0 0 0) = 10.
Proof.
  destruct (calculateScatterPos_shell 0 0 0 ltac:(lra) ltac:(lra)) as [H _].
  rewrite H; lra.
Defined.

Section UpdateProofs.

Variable lookAtRotation : vec3 -> vec3.

(** [updateMesh] moves the position by [Vector3.lerp] towards
    [modeTarget]. *)
Lemma updateMesh_position (delta : R) (mode : ScriptJs.Mode)
    (tp : option ScriptJs.item) (m : mesh) :
  position (updateMesh lookAtRotation delta mode tp m)
  = lerp (position m) (modeTarget mode tp m) (2 * delta).
Proof.
  unfold updateMesh, modeTarget.
  destruct mode; [reflexivity | reflexivity |].
  destruct (is_target tp m); reflexivity.
Qed.

(** C9 (as the code has it): with lerp factor [a = 2 delta] in [0, 1] the
    new position is [(1 - a) old + a target] for the mode's target, on the
    segment between them; for [a < 1] a particle not at its target does
    not land on it in that frame (at [a = 1] it does: the factor is not
    clamped); and the shader's position before turbulence is
    [mix(rest, alternate, blend)]. *)
Theorem updateMesh_on_segment (delta : R) (mode : ScriptJs.Mode)
    (tp : option ScriptJs.item) (m : mesh) (Ha : 0 <= 2 * delta <= 1) :
  let a := 2 * delta in
  let p := position m in
  let t := modeTarget mode tp m in
  let p' := position (updateMesh lookAtRotation delta mode tp m) in
  p' = mkVec3 ((1 - a) * x p + a * x t) ((1 - a) * y p + a * y t)
              ((1 - a) * z p + a * z t) /\
  (a < 1 -> p <> t -> p' <> t) /\
  (forall blend rest alt,
     MainLoop.basePos blend rest alt
     = mkVec3 ((1 - blend) * x rest + blend * x alt)
              ((1 - blend) * y rest + blend * y alt)
              ((1 - blend) * z rest + blend * z alt)).
Proof.
  cbv zeta. rewrite updateMesh_position.
  set (t := modeTarget mode tp m).
  destruct (position m) as [px py pz] eqn:Ep, t as [tx ty tz] eqn:Et.
  unfold lerp; cbn [x y z].
  split; [|split].
  - f_equal; ring.
  - intros Hlt Hne Heq. apply Hne.
    injection Heq; intros Hz Hy Hx.
    f_equal; nra.
  - intros blend [rx ry rz] [ax ay az]; unfold MainLoop.basePos, mix; cbn [x y z].
    f_equal; ring.
Qed.

End UpdateProofs.

(** Witness of C9 at a half lerp factor. *)
Lemma updateMesh_on_segment_witness :
  position (updateMesh (fun v => v) 0.25 ScriptJs.TREE None
              (mkMesh (ScriptJs.mkItem 0 "PARTICLE") (mkVec3 0 0 0) (mkVec3 0 0 0) 1
                 (mkVec3 2 2 2) (mkVec3 20 0 0) (mkVec3 0 0 0)))
  = mkVec3 ((1 - 2 * 0.25) * 0 + 2 * 0.25 * 2) ((1 - 2 * 0.25) * 0 + 2 * 0.25 * 2)
           ((1 - 2 * 0.25) * 0 + 2 * 0.25 * 2).
Proof.
  apply (updateMesh_on_segment (fun v => v) 0.25 ScriptJs.TREE None
           (mkMesh (ScriptJs.mkItem 0 "PARTICLE") (mkVec3 0 0 0) (mkVec3 0 0 0) 1
              (mkVec3 2 2 2) (mkVec3 20 0 0) (mkVec3 0 0 0))).
  lra.
Defined.

(** C9 fails as stated: a frame of 0.5 s (lerp factor 1) puts a particle
    in TREE mode exactly on its tree position in one step. *)
Lemma updateMesh_snaps_at_half_second :
  let m := mkMesh (ScriptJs.mkItem 0 "PARTICLE") (mkVec3 20 0 0) (mkVec3 0 0 0) 1
             (mkVec3 2 2 2) (mkVec3 20 0 0) (mkVec3 0 0 0) in
  position m <> treePos m /\
  position (updateMesh (fun v => v) 0.5 ScriptJs.TREE None m) = treePos m.
Proof.
  cbv zeta. split.
  - intros H; injection H; intros; lra.
  - unfold updateMesh, lerp; cbn [x y z position treePos].
    f_equal; lra.
Qed.

(** [Math.floor(Math.random() * n)] is an index of a non-empty array. *)
Lemma floorRandom_lt (u : R) (n : nat) :
  0 <= u < 1 -> (0 < n)%nat -> (floorRandom u n < n)%nat.
Proof.
  intros Hu Hn. unfold floorRandom.
  destruct (base_Int_part (u * INR n)) as [Hle _].
  assert (Hn' : 0 < INR n) by (apply lt_0_INR; exact Hn).
  assert (Hlt : IZR (Int_part (u * INR n)) < IZR (Z.of_nat n)).
  { rewrite <- INR_IZR_INZ. nra. }
  apply lt_IZR in Hlt. lia.
Qed.

Lemma photo_in_addPhotos (k : nat) (items : list ScriptJs.item) (p : ScriptJs.item) :
  In p items -> In p (addPhotos k items).
Proof.
  revert items; induction k as [|k IH]; intros items Hin; cbn [addPhotos]; auto.
  apply IH; unfold addPhoto; apply in_or_app; left; exact Hin.
Qed.

(** After the constructor and any number of uploads there is a photo. *)
Lemma constructed_has_photo (count k : nat) :
  filter ScriptJs.is_photo (addPhotos k (constructorItems count)) <> [].
Proof.
  intros Hnil.
  assert (Hin : In (ScriptJs.mkItem count "PHOTO") (addPhotos k (constructorItems count))).
  { apply photo_in_addPhotos; unfold constructorItems.
    apply in_or_app; right; left; reflexivity. }
  assert (Hf : In (ScriptJs.mkItem count "PHOTO")
                  (filter ScriptJs.is_photo (addPhotos k (constructorItems count)))).
  { apply filter_In; split; [exact Hin | reflexivity]. }
  rewrite Hnil in Hf; contradiction.
Qed.

(** C10: [triggerFocus] with a draw [u] in [0, 1) sets [targetPhoto] to a
    ['PHOTO'] of the current items and changes nothing else; with no photo
    it changes nothing at all; after the constructor (which adds the
    default photo) and any number of uploads, it always selects a photo. *)
Theorem triggerFocus_selects_photo (u : R) (Hu : 0 <= u < 1) :
  (forall s, filter ScriptJs.is_photo (ScriptJs.items s) = [] ->
     ScriptJs.triggerFocus (floorRandom u) s = (Return tt, s)) /\
  (forall s, filter ScriptJs.is_photo (ScriptJs.items s) <> [] ->
     exists p,
       ScriptJs.triggerFocus (floorRandom u) s
       = (Return tt, ScriptJs.mkApp (ScriptJs.set_targetPhoto (Some p) (ScriptJs.STATE s))
                                    (ScriptJs.items s)) /\
       In p (ScriptJs.items s) /\ ScriptJs.item_type p = "PHOTO"%string) /\
  (forall count k S,
     exists p,
       ScriptJs.targetPhoto (ScriptJs.STATE (snd (ScriptJs.triggerFocus (floorRandom u)
          (ScriptJs.mkApp S (addPhotos k (constructorItems count))))))
       = Some p /\
       In p (addPhotos k (constructorItems count)) /\ ScriptJs.item_type p = "PHOTO"%string).
Proof.
  assert (Hsel : forall s, filter ScriptJs.is_photo (ScriptJs.items s) <> [] ->
     exists p,
       ScriptJs.triggerFocus (floorRandom u) s
       = (Return tt, ScriptJs.mkApp (ScriptJs.set_targetPhoto (Some p) (ScriptJs.STATE s))
                                    (ScriptJs.items s)) /\
       In p (ScriptJs.items s) /\ ScriptJs.item_type p = "PHOTO"%string).
  { intros s Hne. unfold ScriptJs.triggerFocus.
    set (photos := filter ScriptJs.is_photo (ScriptJs.items s)) in *.
    assert (Hlen : (0 < List.length photos)%nat)
      by (destruct photos; [contradiction | cbn [List.length]; lia]).
    pose proof (floorRandom_lt u (List.length photos) Hu Hlen) as Hk.
    destruct (nth_error photos (floorRandom u (List.length photos))) as [p|] eqn:Ep.
    2:{ apply nth_error_None in Ep; lia. }
    apply nth_error_In in Ep. unfold photos in Ep.
    apply filter_In in Ep as [Hin Hph].
    exists p. split; [|split; [exact Hin | apply String.eqb_eq; exact Hph]].
    apply Nat.ltb_lt in Hlen. rewrite Hlen. reflexivity. }
  split; [|split; [exact Hsel|]].
  - intros s Hnil. unfold ScriptJs.triggerFocus. rewrite Hnil. reflexivity.
  - intros count k S.
    destruct (Hsel (ScriptJs.mkApp S (addPhotos k (constructorItems count))))
      as [p [E [Hin Ht]]].
    { apply constructed_has_photo. }
    exists p. rewrite E. split; [reflexivity | split; assumption].
Qed.

(** Witness of C10 on a freshly constructed manager with one decoration. *)
Lemma triggerFocus_selects_photo_witness :
  exists p,
    ScriptJs.targetPhoto (ScriptJs.STATE (snd (ScriptJs.triggerFocus (floorRandom 0)
       (ScriptJs.mkApp ScriptJs.STATE0 (addPhotos 0 (constructorItems 1))))))
    = Some p /\
    In p (addPhotos 0 (constructorItems 1)) /\ ScriptJs.item_type p = "PHOTO"%string.
Proof.
  apply (triggerFocus_selects_photo 0 ltac:(lra)).
Defined.

End ParticleProofs.

Module ClassifierExtra.
Import MainJs ClassifierSpec.

(** [detectGesture] reads only the wrist (0), the four knuckles (5, 9, 13,
    17) and the four finger tips (8, 12, 16, 20) of a full hand: two hands
    that agree on these nine landmarks get the same verdict, whatever
    their thumbs and middle joints. *)
Theorem detectGesture_reads_nine_landmarks (lm lm' : list landmark)
    (H : (21 <= List.length lm)%nat) (H' : (21 <= List.length lm')%nat)
    (Hagree : forall i, In i [0; 5; 8; 9; 12; 13; 16; 17; 20]%nat ->
                nth i lm origin = nth i lm' origin) :
  detectGesture (Some lm) = detectGesture (Some lm').
Proof.
  rewrite (ClassifierProofs.detectGesture_full lm H),
          (ClassifierProofs.detectGesture_full lm' H').
  assert (E : extendedCount lm = extendedCount lm').
  { unfold extendedCount, extended; cbn [filter fst snd].
    rewrite (Hagree 0%nat), (Hagree 5%nat), (Hagree 8%nat), (Hagree 9%nat),
      (Hagree 12%nat), (Hagree 13%nat), (Hagree 16%nat), (Hagree 17%nat),
      (Hagree 20%nat) by (cbn; lia).
    reflexivity. }
  rewrite E; reflexivity.
Qed.

(** Witness: the open hand and the pinched hand differ in the thumb tip
    only, and get the same verdict. *)
Lemma detectGesture_reads_nine_landmarks_witness :
  detectGesture (Some Samples.open_hand) = detectGesture (Some Samples.pinched_hand).
Proof.
  apply detectGesture_reads_nine_landmarks; [vm_compute; lia | vm_compute; lia |].
  intros i Hi.
  repeat (destruct Hi as [<- | Hi]; [vm_compute; reflexivity |]).
  destruct Hi.
Defined.

End ClassifierExtra.

Module HandlerExtra.
Import MainJs ScriptJs.

Lemma read_out (lm : list landmark) (i : nat) :
  (List.length lm <= i)%nat -> read lm i = TypeError.
Proof. intros H; unfold read; rewrite (proj2 (nth_error_None lm i) H); reflexivity. Qed.

Lemma sumTipDist_missing (hypot : float -> float -> float) (lm : list landmark)
    (w : landmark) (tips : list nat) (acc : float) :
  Exists (fun t => List.length lm <= t)%nat tips ->
  sumTipDist hypot lm w tips acc = TypeError.
Proof.
  intros Hex; revert acc.
  induction Hex as [t ts Ht | t ts Hex IH]; intros acc; cbn [sumTipDist].
  - rewrite (read_out lm t Ht); reflexivity.
  - destruct (read lm t); cbn [bind]; auto.
Qed.

(** Whatever it returns, the prelude sets [handDetected] and writes
    neither [mode], [gesture], [targetPhoto] nor the items. *)
Lemma handPrelude_frame (hypot : float -> float -> float) (lm : list landmark) (s : app) :
  exists S',
    snd (handPrelude hypot lm s) = mkApp S' (items s) /\
    mode S' = mode (STATE s) /\ gesture S' = gesture (STATE s) /\
    targetPhoto S' = targetPhoto (STATE s) /\ handDetected S' = true.
Proof.
  unfold handPrelude, jbind, modify_STATE, get_STATE, lift, ret.
  destruct s as [[m t h r g] its]; cbn.
  repeat match goal with
         | |- context [match ?e with Return _ => _ | TypeError => _ end] => destruct e
         end;
  cbn; eexists; repeat split.
Qed.

(** On fewer than 21 landmarks the prelude throws. *)
Lemma handPrelude_short (hypot : float -> float -> float) (lm : list landmark) (s : app) :
  (List.length lm <= 20)%nat -> fst (handPrelude hypot lm s) = TypeError.
Proof.
  intros H.
  unfold handPrelude, jbind, modify_STATE, get_STATE, lift, ret.
  destruct (Nat.le_gt_cases (List.length lm) 9) as [Hs | Hl].
  - rewrite (read_out lm 9 Hs); reflexivity.
  - rewrite (HandlerProofs.read_in lm 9), (HandlerProofs.read_in lm 4),
      (HandlerProofs.read_in lm 8), (HandlerProofs.read_in lm 0) by lia.
    rewrite sumTipDist_missing; [reflexivity|].
    do 3 apply Exists_cons_tl. apply Exists_cons_hd. lia.
Qed.

(** Both [script.js] handlers throw a [TypeError] on a first hand of
    fewer than 21 landmarks; by then [handDetected] is [true] (and the
    hand rotation may have moved), but the mode, the gesture, the focused
    photo and the items are as before. *)
Theorem handleGestures_short_hand_throws (hypot : float -> float -> float)
    (pick : nat -> nat) (lm : list landmark) (rest : list (list landmark)) (s : app)
    (H : (List.length lm <= 20)%nat) :
  forall r, r = handleGestures_v2 hypot pick (Some (lm :: rest)) s \/
            r = handleGestures_v3 hypot pick (Some (lm :: rest)) s ->
  fst r = TypeError /\
  mode (STATE (snd r)) = mode (STATE s) /\ gesture (STATE (snd r)) = gesture (STATE s) /\
  targetPhoto (STATE (snd r)) = targetPhoto (STATE s) /\ items (snd r) = items s /\
  handDetected (STATE (snd r)) = true.
Proof.
  pose proof (handPrelude_short hypot lm s H) as Hf.
  destruct (handPrelude_frame hypot lm s) as [S' [Es [Hm [Hg [Ht Hh]]]]].
  destruct (handPrelude hypot lm s) as [o s1] eqn:E; cbn in Hf, Es; subst o s1.
  assert (E2 : handleGestures_v2 hypot pick (Some (lm :: rest)) s = (TypeError, mkApp S' (items s))).
  { unfold handleGestures_v2, jbind at 1; rewrite E; reflexivity. }
  assert (E3 : handleGestures_v3 hypot pick (Some (lm :: rest)) s = (TypeError, mkApp S' (items s))).
  { unfold handleGestures_v3, jbind at 1; rewrite E; reflexivity. }
  intros r [-> | ->]; [rewrite E2 | rewrite E3]; cbn; repeat split; assumption.
Qed.

(** Witness: the one-landmark hand. *)
Lemma handleGestures_short_hand_throws_witness :
  fst (handleGestures_v2 Samples.hypot_js (fun _ => 0%nat) (Some [Samples.short_hand])
         (mkApp STATE0 [])) = TypeError.
Proof.
  apply (handleGestures_short_hand_throws Samples.hypot_js (fun _ => 0%nat)
           Samples.short_hand [] (mkApp STATE0 [])); [cbn; lia | left; reflexivity].
Defined.

(** The handler of lines 408-469 keeps the mode explained by the gesture:
    if SCATTER only ever follows OPEN and FOCUS only PINCH before a call,
    the same holds after it, whatever the detection results, also when
    the call throws. *)
Theorem handleGestures_v2_mode_agrees (hypot : float -> float -> float)
    (pick : nat -> nat) (l : option (list (list landmark))) (s : app)
    (H : mode_agrees (STATE s) = true) :
  mode_agrees (STATE (snd (handleGestures_v2 hypot pick l s))) = true.
Proof.
  destruct l as [[|lm rest]|]; [reflexivity | | reflexivity].
  destruct (handPrelude_frame hypot lm s) as [S' [Es [Hm [Hg [Ht Hh]]]]].
  destruct (handPrelude hypot lm s) as [[[pd avg]|] s1] eqn:E; cbn in Es; subst s1.
  - unfold handleGestures_v2, jbind at 1; rewrite E; cbv beta iota.
    destruct (pd <? 0.05).
    + unfold jbind, modify_STATE; cbn [STATE items].
      match goal with |- context [triggerFocus pick ?a] =>
        destruct (HandlerProofs.triggerFocus_keeps pick a) as [_ [Hm' [Hg' _]]] end.
      unfold mode_agrees; rewrite Hm', Hg'; reflexivity.
    + destruct (0.45 <? avg); [reflexivity|].
      destruct (avg <? 0.25); [reflexivity|].
      unfold jbind, modify_STATE, get_STATE, ret; cbn [STATE items].
      destruct S' as [m t h r g]; cbn; destruct m; reflexivity.
  - unfold handleGestures_v2, jbind at 1; rewrite E; cbn [snd STATE].
    unfold mode_agrees in *; rewrite Hm, Hg; exact H.
Qed.

(** Witness: an open hand from the initial [STATE]. *)
Lemma handleGestures_v2_mode_agrees_witness :
  mode_agrees (STATE (snd (handleGestures_v2 Samples.hypot_js (fun _ => 0%nat)
                             (Some [Samples.open_hand]) (mkApp STATE0 [])))) = true.
Proof.
  apply handleGestures_v2_mode_agrees; reflexivity.
Defined.

End HandlerExtra.

Module MainLoopExtra.
Import Three MainLoop.
Open Scope R_scope.



Lemma predictWebcam_step_invariant (t : R) (results : option (list (list MainJs.landmark)))
    (s s' : main_state) :
  0 <= targetMix s <= 1 -> gesture_known (gesture s) ->
  predictWebcam true t results s = Return s' ->
  0 <= targetMix s' <= 1 /\ gesture_known (gesture s').
Proof.
  intros Hm Hg E. unfold predictWebcam in E.
  destruct (Req_EM_T t (lastVideoTime s)); cbn [andb] in E;
    [injection E; intros <-; auto|].
  destruct results as [[|lm rest]|].
  - injection E; intros <-; cbn [targetMix gesture].
    unfold gesture_known, Rmax; destruct (Rle_dec 0 (targetMix s - 0.02)); split; [lra | tauto | lra | tauto].
  - destruct (MainJs.detectGesture (Some lm)) as [g|] eqn:Eg; cbn [bind] in E; [|discriminate].
    injection E; intros <-; cbn [targetMix gesture].
    destruct (HandlerProofs.detectGesture_range _ _ Eg) as [-> | [-> | ->]];
      cbn; unfold gesture_known; split; (lra || tauto).
  - injection E; intros <-; cbn [targetMix gesture].
    unfold gesture_known, Rmax; destruct (Rle_dec 0 (targetMix s - 0.02)); split; [lra | tauto | lra | tauto].
Qed.

(** Along the webcam loop [targetMix] stays in [0, 1] and [gesture] is
    one of 'loading', 'open', 'closed', 'none', as in the initial
    [state]. *)
Theorem predictWebcam_run_invariant
    (frames : list (R * option (list (list MainJs.landmark)))) (s s' : main_state)
    (Hm : 0 <= targetMix s <= 1) (Hg : gesture_known (gesture s))
    (E : predictWebcam_run frames s = Return s') :
  0 <= targetMix s' <= 1 /\ gesture_known (gesture s').
Proof.
  revert s Hm Hg E; induction frames as [|[t r] fs IH]; intros s Hm Hg E;
    cbn [predictWebcam_run] in E.
  - injection E; intros <-; auto.
  - destruct (predictWebcam true t r s) as [s1|] eqn:E1; cbn [bind] in E; [|discriminate].
    destruct (predictWebcam_step_invariant t r s s1 Hm Hg E1) as [Hm1 Hg1].
    exact (IH s1 Hm1 Hg1 E).
Qed.

(** Witness: one frame with no hand from the initial [state]. *)
Lemma predictWebcam_run_invariant_witness :
  exists s', predictWebcam_run [(0, None)] state0 = Return s' /\ 0 <= targetMix s' <= 1.
Proof.
  exists (mkMain "none" (Rmax 0 (0 - 0.02)) 0).
  assert (E : predictWebcam_run [(0, None)] state0 = Return (mkMain "none" (Rmax 0 (0 - 0.02)) 0)).
  { cbn [predictWebcam_run].
    rewrite (MainLoopProofs.predictWebcam_no_hand 0 state0 None) by (cbn; lra || auto).
    reflexivity. }
  split; [exact E|].
  apply (predictWebcam_run_invariant [(0, None)] state0 _); [cbn; lra | left; reflexivity | exact E].
Defined.

Lemma Rmax_decay (a c d : R) :
  0 <= c -> 0 <= d -> Rmax 0 (Rmax 0 (a - c) - d) = Rmax 0 (a - (c + d)).
Proof.
  intros Hc Hd; unfold Rmax.
  destruct (Rle_dec 0 (a - c)); destruct (Rle_dec 0 (a - (c + d)));
    try destruct (Rle_dec 0 (a - c - d)); try destruct (Rle_dec 0 (0 - d)); lra.
Qed.

(** With no hand in sight, [k] new video frames lower [targetMix] by
    [0.02 k], clamped at 0: from any value in [0, 1] the tree is the
    target again after 50 frames. *)
Theorem predictWebcam_idle_decay (ts : list R) (s : main_state)
    (H0 : 0 <= targetMix s) (H : new_times (lastVideoTime s) ts) :
  exists s',
    predictWebcam_run (map (fun t => (t, None)) ts) s = Return s' /\
    targetMix s' = Rmax 0 (targetMix s - 0.02 * INR (List.length ts)) /\
    (targetMix s <= 1 -> (50 <= List.length ts)%nat -> targetMix s' = 0).
Proof.
  assert (Hmain : forall ts s, new_times (lastVideoTime s) ts -> 0 <= targetMix s ->
    exists s',
      predictWebcam_run (map (fun t => (t, None)) ts) s = Return s' /\
      targetMix s' = Rmax 0 (targetMix s - 0.02 * INR (List.length ts))).
  { induction ts0 as [|t ts0 IH]; intros s0 Hn Hs0; cbn [map predictWebcam_run].
    - exists s0; split; [reflexivity|]. cbn [List.length INR].
      rewrite Rmult_0_r, Rminus_0_r, Rmax_right by lra; reflexivity.
    - destruct Hn as [Ht Hn].
      rewrite (MainLoopProofs.predictWebcam_no_hand t s0 None Ht (or_introl eq_refl)).
      cbn [bind].
      destruct (IH (mkMain "none" (Rmax 0 (targetMix s0 - 0.02)) t) Hn)
        as [s' [E Hs']]; [cbn; apply Rmax_l|].
      exists s'; split; [exact E|].
      rewrite Hs'; cbn [targetMix List.length]; rewrite S_INR.
      pose proof (pos_INR (List.length ts0)).
      replace (targetMix s0 - 0.02 * (INR (List.length ts0) + 1))
        with (targetMix s0 - (0.02 + 0.02 * INR (List.length ts0))) by ring.
      apply Rmax_decay; lra. }
  destruct (Hmain ts s H H0) as [s' [E Hs']].
  exists s'; split; [exact E|]. split; [exact Hs'|].
  intros H1 Hl. rewrite Hs'.
  apply le_INR in Hl.
  replace (INR 50) with 50 in Hl by (cbn; ring).
  unfold Rmax; destruct (Rle_dec 0 (targetMix s - 0.02 * INR (List.length ts))); lra.
Qed.

(** Witness: one new frame without a hand from the initial [state]. *)
Lemma predictWebcam_idle_decay_witness :
  exists s',
    predictWebcam_run (map (fun t => (t, None)) [0]) state0 = Return s' /\
    targetMix s' = Rmax 0 (0 - 0.02 * INR 1).
Proof.
  destruct (predictWebcam_idle_decay [0] state0) as [s' [E [Hs _]]].
  - cbn; lra.
  - cbn; split; [lra | exact I].
  - exists s'; split; [exact E | exact Hs].
Defined.

(** A hand of 1 to 20 landmarks on a new frame makes [predictWebcam]
    throw before it requests the next frame: the webcam loop stops, and
    no later frame is ever processed. *)
Theorem predictWebcam_run_stops_on_short_hand (t : R) (lm : list MainJs.landmark)
    (rest : list (list MainJs.landmark))
    (fs : list (R * option (list (list MainJs.landmark)))) (s : main_state)
    (Hnew : t <> lastVideoTime s) (Hne : lm <> []) (Hlen : (List.length lm < 21)%nat) :
  predictWebcam_run ((t, Some (lm :: rest)) :: fs) s = TypeError.
Proof.
  cbn [predictWebcam_run]. unfold predictWebcam.
  destruct (Req_EM_T t (lastVideoTime s)) as [E|_]; [contradiction|]. cbn [andb].
  destruct lm as [|a lm]; [congruence|].
  unfold MainJs.detectGesture.
  rewrite (ClassifierProofs.lookup_in (a :: lm) 0) by (cbn [List.length]; lia).
  rewrite ClassifierProofs.forEach_fingers_missing; [reflexivity|].
  unfold MainJs.fingerIndices.
  do 3 apply Exists_cons_tl. apply Exists_cons_hd. cbn [fst snd]. lia.
Qed.

(** Witness: the one-landmark hand on the first frame. *)
Lemma predictWebcam_run_stops_on_short_hand_witness :
  predictWebcam_run [(0, Some [Samples.short_hand]); (1, None)] state0 = TypeError.
Proof.
  apply predictWebcam_run_stops_on_short_hand;
    [cbn; lra | discriminate | cbn; lia].
Defined.

(** Over [n] frames of [animate] with a fixed [targetMix], [uTime] grows
    by [0.01 n], the gap of [uMix] to the target shrinks by [0.95 ^ n], and
    [uMix] stays in [0, 1] when it and the target start there. *)
Theorem animate_n_uniforms (n : nat) (s : main_state) (u : uniforms) :
  uTime (animate_n n s u) = uTime u + 0.01 * INR n /\
  targetMix s - uMix (animate_n n s u) = 0.95 ^ n * (targetMix s - uMix u) /\
  (0 <= targetMix s <= 1 -> 0 <= uMix u <= 1 -> 0 <= uMix (animate_n n s u) <= 1).
Proof.
  assert (Hgap : forall n u, uTime (animate_n n s u) = uTime u + 0.01 * INR n /\
            targetMix s - uMix (animate_n n s u) = 0.95 ^ n * (targetMix s - uMix u)).
  { induction n0 as [|n0 IH]; intros u0; cbn [animate_n].
    - cbn [INR pow]; split; ring.
    - destruct (IH (animate s u0)) as [E1 E2].
      rewrite E1, E2; unfold animate; cbn [uTime uMix]. rewrite S_INR.
      cbn [pow]; split; [lra|]. set (p := 0.95 ^ n0). set (um := uMix u0). set (tm := targetMix s). assert (Eg : tm - (um + (tm - um) * 0.05) = 0.95 * (tm - um)) by lra. rewrite Eg; ring. }
  destruct (Hgap n u) as [E1 E2]. split; [exact E1|]. split; [exact E2|].
  intros Ht Hu.
  assert (Hp : 0 < 0.95 ^ n) by (apply pow_lt; lra).
  assert (Hp1 : 0.95 ^ n <= 1) by (rewrite <- (pow1 n); apply pow_incr; lra).
  set (p := 0.95 ^ n) in *.
  assert (Hm : uMix (animate_n n s u) = (1 - p) * targetMix s + p * uMix u) by lra.
  rewrite Hm. split; nra.
Qed.

(** Witness: ten frames from the initial uniforms towards the scatter
    target. *)
Lemma animate_n_uniforms_witness :
  0 <= uMix (animate_n 10 (mkMain "open" 1 0) uniforms0) <= 1.
Proof.
  apply (animate_n_uniforms 10 (mkMain "open" 1 0) uniforms0); cbn; lra.
Defined.

(** The tree spiral of the vertex shader turns about the vertical axis:
    it never changes a particle's height nor its distance from the axis;
    from [uMix = 0.5] on the shader applies no rotation at all. *)
Theorem vertexPos_keeps_height_and_axis_distance (snoise : vec3 -> R)
    (uTime uMix : R) (position targetPosition aRandom : vec3) :
  let p := vertexPos snoise uTime uMix position targetPosition aRandom in
  let q := displaced snoise uTime uMix position targetPosition aRandom in
  y p = y q /\ hradius p = hradius q /\ (0.5 <= uMix -> p = q).
Proof.
  cbv zeta. unfold vertexPos. fold (displaced snoise uTime uMix position targetPosition aRandom).
  destruct (displaced snoise uTime uMix position targetPosition aRandom) as [qx qy qz].
  destruct (Rlt_dec uMix 0.5) as [Hlt | Hge].
  - cbn [x y z]. split; [reflexivity|]. split; [|intros; lra].
    unfold hradius; cbn [x z]. f_equal.
    set (c := cos (uTime * 0.1)); set (sn := sin (uTime * 0.1)).
    assert (Hcs : sn * sn + c * c = 1) by (pose proof (sin2_cos2 (uTime * 0.1)) as E; unfold Rsqr in E; exact E).
    transitivity ((qx * qx + qz * qz) * (sn * sn + c * c)); [ring|].
    rewrite Hcs; ring.
  - repeat split; reflexivity.
Qed.

(** At [uMix = 0] the noise has no effect at any time: the shader only
    turns the rest position by [uTime * 0.1] about the vertical axis. *)
Theorem vertexPos_tree_rotation (snoise : vec3 -> R) (uTime : R)
    (position targetPosition aRandom : vec3) :
  let a := uTime * 0.1 in
  vertexPos snoise uTime 0 position targetPosition aRandom
  = mkVec3 (x position * cos a - z position * sin a) (y position)
           (x position * sin a + z position * cos a).
Proof.
  cbv zeta. unfold vertexPos, basePos, mix.
  destruct (Rlt_dec 0 0.5) as [_|n]; [|lra].
  destruct position as [px py pz]; cbn [x y z].
  f_equal; ring.
Qed.

(** Witness: at [uMix = 1], with a zero noise, no rotation is applied. *)
Lemma vertexPos_keeps_height_and_axis_distance_witness :
  vertexPos (fun _ => 0) 0 1 (mkVec3 1 0 0) (mkVec3 0 0 1) (mkVec3 0 0 0)
  = displaced (fun _ => 0) 0 1 (mkVec3 1 0 0) (mkVec3 0 0 1) (mkVec3 0 0 0).
Proof.
  apply (vertexPos_keeps_height_and_axis_distance (fun _ => 0) 0 1
           (mkVec3 1 0 0) (mkVec3 0 0 1) (mkVec3 0 0 0)); lra.
Defined.

End MainLoopExtra.

Module SceneProofs.
Import Three Scene.
Open Scope R_scope.

(** A point [(cos a * r, h, sin a * r)] with [r >= 0] is at distance [r]
    from the vertical axis. *)
Lemma hradius_polar (a h r : R) :
  0 <= r -> hradius (mkVec3 (cos a * r) h (sin a * r)) = r.
Proof.
  intros Hr; unfold hradius; cbn [x z].
  replace (cos a * r * (cos a * r) + sin a * r * (sin a * r))
    with (r * r * ((sin a)² + (cos a)²)) by (unfold Rsqr; ring).
  rewrite sin2_cos2, Rmult_1_r. apply sqrt_square; exact Hr.
Qed.







Lemma Rpower_1_base (c : R) : Rpower 1 c = 1.
Proof. unfold Rpower; rewrite ln_1, Rmult_0_r; apply exp_0. Qed.

Lemma pow15_bounds (g : R) : g <= 1 -> 0 <= pow15 g <= 1.
Proof.
  intros Hg; unfold pow15; destruct (Rlt_dec 0 g) as [Hp|]; [|lra].
  split; [left; unfold Rpower; apply exp_pos|].
  rewrite <- (Rpower_1_base 1.5). apply Rle_Rpower_l; lra.
Qed.

Lemma pow15_lt (g g' : R) : 0 <= g -> g < g' -> pow15 g < pow15 g'.
Proof.
  intros H0 Hlt; unfold pow15.
  destruct (Rlt_dec 0 g') as [Hp'|]; [|lra].
  destruct (Rlt_dec 0 g) as [Hp|].
  - apply Rlt_Rpower_l; lra.
  - unfold Rpower; apply exp_pos.
Qed.

(** The point sprite of the fragment shader: discarded exactly outside
    the disc of radius 0.5 about the centre of the point; inside, the
    alpha is in [0, vAlpha], equals [vAlpha] at the centre and falls off
    strictly with the distance from it. *)
Theorem fragment_glow (vAlpha : R) :
  (forall px py, fragment px py vAlpha = None <-> 0.5 < pointRadius px py) /\
  (0 <= vAlpha -> forall px py a, fragment px py vAlpha = Some a -> 0 <= a <= vAlpha) /\
  fragment 0.5 0.5 vAlpha = Some vAlpha /\
  (0 < vAlpha -> forall px py px' py' a a',
     pointRadius px py < pointRadius px' py' ->
     fragment px py vAlpha = Some a -> fragment px' py' vAlpha = Some a' -> a' < a).
Proof.
  split; [|split; [|split]].
  - intros px py; unfold fragment.
    destruct (Rlt_dec 0.5 (pointRadius px py)); split; intros H; auto; try discriminate; lra.
  - intros Hv px py a; unfold fragment.
    destruct (Rlt_dec 0.5 (pointRadius px py)) as [|Hr]; [discriminate|].
    intros E; injection E; intros <-.
    pose proof (sqrt_pos ((px - 0.5) * (px - 0.5) + (py - 0.5) * (py - 0.5))).
    fold (pointRadius px py) in *.
    destruct (pow15_bounds (1 - pointRadius px py * 2)) as [Hg0 Hg1]; [lra|].
    split; nra.
  - unfold fragment, pointRadius.
    replace ((0.5 - 0.5) * (0.5 - 0.5) + (0.5 - 0.5) * (0.5 - 0.5)) with 0 by ring.
    rewrite sqrt_0.
    destruct (Rlt_dec 0.5 0); [lra|].
    unfold pow15. replace (1 - 0 * 2) with 1 by ring.
    destruct (Rlt_dec 0 1); [|lra].
    rewrite Rpower_1_base, Rmult_1_r; reflexivity.
  - intros Hv px py px' py' a a' Hlt; unfold fragment.
    destruct (Rlt_dec 0.5 (pointRadius px py)) as [|Hr]; [discriminate|].
    destruct (Rlt_dec 0.5 (pointRadius px' py')) as [|Hr']; [discriminate|].
    intros E E'; injection E; injection E'; intros <- <-.
    assert (Hs : pow15 (1 - pointRadius px' py' * 2) < pow15 (1 - pointRadius px py * 2))
      by (apply pow15_lt; lra).
    nra.
Qed.

(** Witness: the centre of a fully opaque point. *)
Lemma fragment_glow_witness :
  fragment 0.5 0.5 1 = Some 1 /\ 0 <= 1 <= 1.
Proof.
  pose proof (proj1 (proj2 (proj2 (fragment_glow 1)))) as Hc.
  split; [exact Hc|].
  apply (proj1 (proj2 (fragment_glow 1)) ltac:(lra) 0.5 0.5 1 Hc).
Defined.

(** Without a hand the scene spins by 0.002 per frame about the vertical
    axis and floats with a tilt of at most 0.05; the roll is never
    touched. *)
Theorem groupRotation_idle (frames : list (bool * R * R * R)) (rot : vec3)
    (Hidle : Forall (fun f => fst (fst (fst f)) = false) frames) :
  let r := groupRotation_run frames rot in
  y r = y rot + 0.002 * INR (List.length frames) /\ z r = z rot /\
  (frames <> [] -> -0.05 <= x r <= 0.05).
Proof.
  cbv zeta. revert rot.
  induction Hidle as [|f fs Hh Hidle IH]; intros rot.
  - cbn [groupRotation_run List.length INR]; split; [ring|].
    split; [reflexivity | intros H; contradiction].
  - destruct f as [[[h hx] hy] t]; cbn [fst] in Hh; subst h.
    cbn [groupRotation_run List.length].
    destruct (IH (groupRotation false hx hy t rot)) as [Ey [Ez Ex]].
    unfold groupRotation in *; cbn [x y z] in *.
    rewrite Ey, Ez, S_INR. split; [ring|]. split; [reflexivity|].
    intros _. destruct fs as [|f fs].
    + cbn [groupRotation_run x]. pose proof (SIN_bound (t * 0.5)). lra.
    + apply Ex; discriminate.
Qed.

(** Witness: one idle frame at time 0. *)
Lemma groupRotation_idle_witness :
  y (groupRotation_run [(false, 0, 0, 0)] (mkVec3 0 0 0)) = 0 + 0.002 * INR 1.
Proof.
  apply (groupRotation_idle [(false, 0, 0, 0)] (mkVec3 0 0 0)).
  repeat constructor.
Defined.

End SceneProofs.

Module ParticleExtra.
Import Three Particles.
Open Scope R_scope.

(** [calculateTreePos] places every point of the constructor's spiral
    ([0 <= i <= total]) in the cone of height 25 centred on the origin,
    base radius 10 at [y = -12.5], apex at [y = 12.5]: its distance from
    the axis is [0.4 (12.5 - y)] scaled by [sqrt u], and photos
    ([surfaceOnly]) lie exactly on the cone's surface. *)
Theorem calculateTreePos_cone (i total : R) (surfaceOnly : bool) (u : R)
    (Ht : 0 < total) (Hi : 0 <= i <= total) (Hu : 0 <= u <= 1) :
  let p := calculateTreePos i total surfaceOnly u in
  -12.5 <= y p <= 12.5 /\
  hradius p = 0.4 * (12.5 - y p) * (if surfaceOnly then 1 else sqrt u) /\
  hradius p <= 0.4 * (12.5 - y p).
Proof.
  cbv zeta. unfold calculateTreePos, treeHeight, treeRadius.
  set (t := i / total).
  assert (Et : i = t * total) by (unfold t; field; lra).
  assert (Ht0 : 0 <= t <= 1) by (split; nra).
  assert (Hs : 0 <= sqrt u <= 1)
    by (split; [apply sqrt_pos | rewrite <- sqrt_1; apply sqrt_le_1_alt; lra]).
  destruct surfaceOnly; rewrite SceneProofs.hradius_polar by nra; cbn [y];
    repeat split; nra.
Qed.

(** Witness: the first decoration of a manager of one. *)
Lemma calculateTreePos_cone_witness :
  hradius (calculateTreePos 0 1 false 1) <= 0.4 * (12.5 - y (calculateTreePos 0 1 false 1)).
Proof. apply (calculateTreePos_cone 0 1 false 1); lra. Defined.

Lemma addPhotos_ids (k : nat) (items : list ScriptJs.item) (n : nat) :
  map ScriptJs.item_id items = seq 0 n ->
  map ScriptJs.item_id (addPhotos k items) = seq 0 (n + k).
Proof.
  revert items n; induction k as [|k IH]; intros items n H; cbn [addPhotos].
  - rewrite Nat.add_0_r; exact H.
  - replace (n + S k)%nat with (S n + k)%nat by lia. apply IH.
    unfold addPhoto. rewrite map_app, H. cbn [map ScriptJs.item_id].
    rewrite <- (length_map ScriptJs.item_id items), H, length_seq.
    symmetry; apply seq_S.
Qed.

Lemma addPhotos_photos (k : nat) (items : list ScriptJs.item) :
  List.length (filter ScriptJs.is_photo (addPhotos k items))
  = (List.length (filter ScriptJs.is_photo items) + k)%nat.
Proof.
  revert items; induction k as [|k IH]; intros items; cbn [addPhotos]; [lia|].
  rewrite IH. unfold addPhoto. rewrite filter_app, length_app. cbn. lia.
Qed.

Lemma particles_no_photo (l : list nat) :
  filter ScriptJs.is_photo (map (fun i => ScriptJs.mkItem i "PARTICLE") l) = [].
Proof. induction l as [|a l IH]; [reflexivity|]; cbn [map filter]; exact IH. Qed.

(** After the constructor with [count] decorations and [k] uploads the
    manager holds [count + 1 + k] meshes with the distinct identities
    [0 .. count + k] in creation order, [1 + k] of them photos. *)
Theorem constructed_items_ids (count k : nat) :
  let its := addPhotos k (constructorItems count) in
  map ScriptJs.item_id its = seq 0 (count + 1 + k) /\
  NoDup (map ScriptJs.item_id its) /\
  List.length its = (count + 1 + k)%nat /\
  List.length (filter ScriptJs.is_photo its) = S k.
Proof.
  cbv zeta.
  assert (E : map ScriptJs.item_id (addPhotos k (constructorItems count))
              = seq 0 (count + 1 + k)).
  { apply addPhotos_ids. unfold constructorItems.
    rewrite map_app, map_map; cbn [map ScriptJs.item_id].
    rewrite map_id, Nat.add_1_r, seq_S; reflexivity. }
  split; [exact E|]. split; [rewrite E; apply seq_NoDup|]. split.
  - rewrite <- (length_map ScriptJs.item_id), E, length_seq; reflexivity.
  - rewrite addPhotos_photos. unfold constructorItems.
    rewrite filter_app, particles_no_photo; reflexivity.
Qed.

Lemma filter_target_le1 (tp : option ScriptJs.item) (ms : list mesh) :
  NoDup (map (fun m => ScriptJs.item_id (m_item m)) ms) ->
  (List.length (filter (is_target tp) ms) <= 1)%nat.
Proof.
  induction ms as [|m ms IH]; intros Hnd; cbn [filter List.length]; [lia|].
  inversion Hnd as [|? ? Hnin Hnd']; subst.
  destruct (is_target tp m) eqn:Em; [|apply IH; exact Hnd'].
  cbn [List.length].
  assert (Hnil : filter (is_target tp) ms = []).
  { destruct (filter (is_target tp) ms) as [|m' ms'] eqn:Ef; [reflexivity|].
    assert (Hin : In m' (filter (is_target tp) ms)) by (rewrite Ef; left; reflexivity).
    apply filter_In in Hin as [Hin Ht'].
    exfalso; apply Hnin.
    destruct tp as [t|]; [|discriminate].
    unfold is_target in Em, Ht'. apply Nat.eqb_eq in Em, Ht'.
    rewrite <- Em, Ht'. apply in_map with (f := fun m => ScriptJs.item_id (m_item m)).
    exact Hin. }
  rewrite Hnil; cbn; lia.
Qed.

(** In FOCUS mode at most one of the meshes of a constructed manager (and
    any uploads) is the focused photo that [update] sends to [(0, 2, 35)]
    and scales to 4. *)
Theorem focus_targets_at_most_one (count k : nat) (tp : option ScriptJs.item)
    (ms : list mesh) (H : map m_item ms = addPhotos k (constructorItems count)) :
  (List.length (filter (is_target tp) ms) <= 1)%nat.
Proof.
  apply filter_target_le1.
  replace (map (fun m => ScriptJs.item_id (m_item m)) ms)
    with (map ScriptJs.item_id (map m_item ms)) by (rewrite map_map; reflexivity).
  rewrite H. apply (constructed_items_ids count k).
Qed.

(** Witness: one decoration and the default photo, focused. *)
Lemma focus_targets_at_most_one_witness :
  (List.length (filter (is_target (Some (ScriptJs.mkItem 1 "PHOTO")))
     (map (fun it => mkMesh it (mkVec3 0 0 0) (mkVec3 0 0 0) 1 (mkVec3 0 0 0)
                            (mkVec3 0 0 0) (mkVec3 0 0 0))
          (addPhotos 0 (constructorItems 1)))) <= 1)%nat.
Proof.
  apply (focus_targets_at_most_one 1 0). rewrite map_map; reflexivity.
Defined.

Section UpdateExtra.

Variable lookAtRotation : vec3 -> vec3.

Lemma updateMesh_keeps (delta : R) (mode : ScriptJs.Mode) (tp : option ScriptJs.item)
    (m : mesh) :
  let m' := updateMesh lookAtRotation delta mode tp m in
  m_item m' = m_item m /\ treePos m' = treePos m /\ scatterPos m' = scatterPos m /\
  rotationSpeed m' = rotationSpeed m.
Proof.
  cbv zeta; unfold updateMesh.
  destruct mode; [| |destruct (is_target tp m)]; cbn; repeat split.
Qed.


Lemma modeTarget_keeps (delta : R) (mode : ScriptJs.Mode) (tp : option ScriptJs.item)
    (m : mesh) :
  modeTarget mode tp (updateMesh lookAtRotation delta mode tp m) = modeTarget mode tp m /\
  modeScale mode tp (updateMesh lookAtRotation delta mode tp m) = modeScale mode tp m.
Proof.
  destruct (updateMesh_keeps delta mode tp m) as [Hi [Ht [Hs _]]].
  unfold modeTarget, modeScale, is_target. rewrite Hi, Ht, Hs. split; reflexivity.
Qed.

Lemma updateMesh_scale_eq (delta : R) (mode : ScriptJs.Mode) (tp : option ScriptJs.item)
    (m : mesh) :
  scale (updateMesh lookAtRotation delta mode tp m)
  = if Rlt_dec 0.01 (Rabs (scale m - modeScale mode tp m))
    then lerpR (scale m) (modeScale mode tp m) (2 * delta) else scale m.
Proof.
  unfold updateMesh, modeScale.
  destruct mode; [| |destruct (is_target tp m)]; reflexivity.
Qed.

(** With lerp factor [2 delta] in [0, 1] the scale moves from its value
    towards the mode's target scale (1, or 4 for the focused photo)
    without overshooting it, and stays in [1, 4] when it starts there;
    within 0.01 of the target it is left as it is. *)
Theorem updateMesh_scale_between (delta : R) (mode : ScriptJs.Mode)
    (tp : option ScriptJs.item) (m : mesh) (Ha : 0 <= 2 * delta <= 1) :
  let s := scale m in
  let s' := scale (updateMesh lookAtRotation delta mode tp m) in
  let ts := modeScale mode tp m in
  (s <= ts -> s <= s' <= ts) /\ (ts <= s -> ts <= s' <= s) /\
  (1 <= s <= 4 -> 1 <= s' <= 4) /\
  (Rabs (s - ts) <= 0.01 -> s' = s).
Proof.
  cbv zeta. rewrite updateMesh_scale_eq.
  assert (Hts : 1 <= modeScale mode tp m <= 4)
    by (unfold modeScale; destruct mode; [| |destruct (is_target tp m)]; lra).
  set (ts := modeScale mode tp m) in *. set (s := scale m).
  destruct (Rlt_dec 0.01 (Rabs (s - ts))) as [Hgt | Hle]; unfold lerpR.
  - split; [intros; split; nra|]. split; [intros; split; nra|].
    split; [intros; split; nra | intros; lra].
  - repeat split; intros; lra.
Qed.

(** Over [n] frames of length [delta] in one mode a mesh approaches its
    fixed target geometrically: its offset from the target is the initial
    offset times [(1 - 2 delta) ^ n]. *)
Theorem updateMesh_n_position (n : nat) (delta : R) (mode : ScriptJs.Mode)
    (tp : option ScriptJs.item) (m : mesh) :
  let t := modeTarget mode tp m in
  let p := position m in
  let k := (1 - 2 * delta) ^ n in
  position (updateMesh_n lookAtRotation n delta mode tp m)
  = mkVec3 (x t + k * (x p - x t)) (y t + k * (y p - y t)) (z t + k * (z p - z t)).
Proof.
  cbv zeta. revert m; induction n as [|n IH]; intros m; cbn [updateMesh_n].
  - destruct (position m) as [px py pz]; cbn [x y z pow]; f_equal; ring.
  - rewrite IH. rewrite (proj1 (modeTarget_keeps delta mode tp m)).
    rewrite (ParticleProofs.updateMesh_position lookAtRotation).
    destruct (modeTarget mode tp m) as [tx ty tz], (position m) as [px py pz].
    unfold lerp; cbn [x y z pow]. f_equal; ring.
Qed.

(** In TREE mode [update] never turns a mesh; in SCATTER mode it turns it
    about [x] and [y] by its spin speed times [delta] each frame and never
    about [z]. *)
Theorem updateMesh_n_rotation (n : nat) (delta : R) (tp : option ScriptJs.item) (m : mesh) :
  rotation (updateMesh_n lookAtRotation n delta ScriptJs.TREE tp m) = rotation m /\
  rotation (updateMesh_n lookAtRotation n delta ScriptJs.SCATTER tp m)
  = mkVec3 (x (rotation m) + INR n * (x (rotationSpeed m) * delta))
           (y (rotation m) + INR n * (y (rotationSpeed m) * delta))
           (z (rotation m)).
Proof.
  split.
  - revert m; induction n as [|n IH]; intros m; cbn [updateMesh_n]; [reflexivity|].
    rewrite IH; reflexivity.
  - revert m; induction n as [|n IH]; intros m; cbn [updateMesh_n].
    + destruct (rotation m) as [rx ry rz]; cbn [x y z INR]; f_equal; ring.
    + rewrite IH. rewrite (proj2 (proj2 (proj2 (updateMesh_keeps delta ScriptJs.SCATTER tp m)))).
      unfold updateMesh at 1 2; cbn [rotation x y z]. rewrite S_INR. f_equal; ring.
Qed.

End UpdateExtra.

(** Witness: a decoration at scale 4 shrinking towards 1 in TREE mode. *)
Lemma updateMesh_scale_between_witness :
  1 <= scale (updateMesh (fun v => v) 0.25 ScriptJs.TREE None
                (mkMesh (ScriptJs.mkItem 0 "PARTICLE") (mkVec3 0 0 0) (mkVec3 0 0 0) 4
                        (mkVec3 0 0 0) (mkVec3 0 0 0) (mkVec3 0 0 0))) <= 4.
Proof.
  apply (updateMesh_scale_between (fun v => v) 0.25 ScriptJs.TREE None
           (mkMesh (ScriptJs.mkItem 0 "PARTICLE") (mkVec3 0 0 0) (mkVec3 0 0 0) 4
                   (mkVec3 0 0 0) (mkVec3 0 0 0) (mkVec3 0 0 0))); cbn; lra.
Defined.

End ParticleExtra.
